(** * check_import_order: a shallow embedding of the PEP 8 import-order checker

    The development follows [check_import_order.py] function by function.
    Python byte strings are [string]; the dictionaries handled by the grouper
    and the orderer are [gmap string _]; exceptions and the output written
    to the standard streams are carried by a small writer/error monad. *)

From Stdlib Require Import Ascii String NArith Bool List Lia.
From stdpp Require Import base option list gmap strings.

Import ListNotations.
Local Open Scope stdpp_scope.

(** ** Python [str] primitives *)

Module Str.

Definition LF : ascii := Ascii.ascii_of_nat 10.
Definition nl : string := String LF "".

(** [c.isspace()] for a byte in the C locale: TAB, LF, VT, FF, CR, SPACE. *)
Definition isspace (c : ascii) : bool :=
  let n := N_of_ascii c in ((9 <=? n) && (n <=? 13) || (n =? 32))%N.

(** [c.lower()] on a single byte. *)
Definition lower_char (c : ascii) : ascii :=
  let n := N_of_ascii c in
  if ((65 <=? n) && (n <=? 90))%N then ascii_of_N (n + 32) else c.

(** [s.lower()] *)
Fixpoint lower (s : string) : string :=
  match s with
  | EmptyString => EmptyString
  | String c r => String (lower_char c) (lower r)
  end.

(** [s.startswith(p)] *)
Definition startswith (s p : string) : bool := String.prefix p s.

(** [s.lstrip()] *)
Fixpoint lstrip (s : string) : string :=
  match s with
  | EmptyString => EmptyString
  | String c r => if isspace c then lstrip r else s
  end.

(** [s.rstrip()] *)
Fixpoint rstrip (s : string) : string :=
  match s with
  | EmptyString => EmptyString
  | String c r =>
      match rstrip r with
      | EmptyString => if isspace c then EmptyString else String c EmptyString
      | r' => String c r'
      end
  end.

(** [s.strip()] *)
Definition strip (s : string) : string := rstrip (lstrip s).

(** [s.split(sep)] for a one-character separator; never the empty list. *)
Fixpoint split (sep : ascii) (s : string) : list string :=
  match s with
  | EmptyString => [EmptyString]
  | String c r =>
      if Ascii.eqb c sep then EmptyString :: split sep r
      else match split sep r with
           | [] => [String c EmptyString]
           | l :: ls => String c l :: ls
           end
  end.

(** [s.split()]: the maximal runs of non-whitespace characters. *)
Fixpoint words (s : string) : list string :=
  match s with
  | EmptyString => []
  | String c r =>
      if isspace c then words r
      else match r with
           | EmptyString => [String c EmptyString]
           | String c' _ =>
               if isspace c' then String c EmptyString :: words r
               else match words r with
                    | [] => [String c EmptyString]
                    | w :: ws => String c w :: ws
                    end
           end
  end.

(** [sep.join(l)] *)
Fixpoint join (sep : string) (l : list string) : string :=
  match l with
  | [] => EmptyString
  | [x] => x
  | x :: r => x +:+ sep +:+ join sep r
  end.

(** [sub in s] *)
Fixpoint contains (sub s : string) : bool :=
  String.prefix sub s ||
  match s with
  | EmptyString => false
  | String _ r => contains sub r
  end.

(** [f.readlines()] on the contents of a file opened in mode 'r': the
    lines keep their LF terminator, the last one may lack it. *)
Fixpoint readlines (s : string) : list string :=
  match s with
  | EmptyString => []
  | String c r =>
      if Ascii.eqb c LF then nl :: readlines r
      else match readlines r with
           | [] => [String c EmptyString]
           | l :: ls => String c l :: ls
           end
  end.

(** The remainder of [s] after the literal [p], when [s] starts with [p]. *)
Fixpoint after_prefix (p s : string) : option string :=
  match p, s with
  | EmptyString, _ => Some s
  | String a p', String b s' =>
      if Ascii.eqb a b then after_prefix p' s' else None
  | String _ _, EmptyString => None
  end.

(** Bytewise [<] on strings, the order [sorted] compares keys with. *)
Definition lt (a b : string) : bool := String.ltb a b.

End Str.

(** ** Exceptions, output and the monad of effectful code *)

(** The exceptions the program can end with. [Uncaught name] stands for any
    other exception, by name: what the Python runtime raises while it
    imports a module, other than [ImportError], or a [TypeError] or
    [KeyError] on a dictionary of the wrong shape. *)
Inductive exn : Type :=
| ValueError (msg : string)
| IndexError
| IOError (path : string)
| Uncaught (name : string).

(** What an execution does to the outside world, in order. *)
Inductive event : Type :=
| EImport (module_name : string)   (* a call of [__import__] *)
| EStdout (text : string)          (* text written to [sys.stdout] *)
| EStderr (text : string).         (* text written to [sys.stderr] *)

Inductive outcome (A : Type) : Type :=
| Return (a : A)
| Raise (e : exn).
Arguments Return {A} a.
Arguments Raise {A} e.

(** A computation: how it ends, and the events it emitted on the way. *)
Definition M (A : Type) : Type := outcome A * list event.

Definition ret {A} (a : A) : M A := (Return a, []).
Definition raise {A} (e : exn) : M A := (Raise e, []).
Definition emit (ev : event) : M unit := (Return tt, [ev]).

Definition bind {A B} (m : M A) (k : A -> M B) : M B :=
  match m with
  | (Return a, w) => let '(r, w') := k a in (r, w ++ w')
  | (Raise e, w) => (Raise e, w)
  end.

Notation "x <- m ;; k" := (bind m (fun x => k))
  (at level 100, m at next level, right associativity, only parsing).
Notation "m ;;; k" := (bind m (fun _ => k))
  (at level 100, right associativity, only parsing).

(** How the computation ends, whatever it printed. *)
Definition result {A} (m : M A) : outcome A := fst m.
(** What it did on the way. *)
Definition trace {A} (m : M A) : list event := snd m.

(** ** Data *)

(** The three results of [__import__(name)]: a module object, of which the
    program only ever looks at the [repr]; [ImportError]; another exception. *)
Inductive import_result : Type :=
| Module (repr : string)
| ImportError
| ImportRaises (name : string).

(** The [override] dictionaries always carry the keys 'standard',
    'third_party' and 'local', each bound to a list of module names. *)
Record overrides : Type := {
  ov_standard : list string;
  ov_third_party : list string;
  ov_local : list string
}.

Definition EMPTY_OVERRIDE : overrides :=
  {| ov_standard := []; ov_third_party := []; ov_local := [] |}.

(** The values a dictionary of grouped imports holds: a list of statements
    before the orderer has run, a string after. *)
Inductive pyval : Type :=
| VList (l : list string)
| VStr (s : string).

(** The parsed command line ([clargs]). *)
Record clargs : Type := {
  cl_standard : string;
  cl_third_party : string;
  cl_local : string;
  cl_files : list string
}.

(** The truth value of a list: it is not empty. *)
Definition truthy {A} (l : list A) : bool :=
  match l with [] => false | _ :: _ => true end.

(** [x in l] on a list of strings. *)
Definition mem (x : string) (l : list string) : bool :=
  existsb (String.eqb x) l.

(** ** The program *)

(** *** get_module_name_from_import *)

(** The character class [[A-Za-z_0-9\.]]. *)
Definition module_char (c : ascii) : bool :=
  let n := N_of_ascii c in
  ((65 <=? n) && (n <=? 90) || (97 <=? n) && (n <=? 122) || (n =? 95)
   || (48 <=? n) && (n <=? 57) || (n =? 46))%N.

(** The longest prefix of module characters, and what follows it: the
    greedy [[A-Za-z_0-9\.]+] takes the whole run. *)
Fixpoint span_module (s : string) : string * string :=
  match s with
  | EmptyString => (EmptyString, EmptyString)
  | String c r =>
      if module_char c
      then let '(m, t) := span_module r in (String c m, t)
      else (EmptyString, s)
  end.

(** [.*$] without MULTILINE or DOTALL: any characters but LF up to the end
    of the string, or up to one LF that ends it. *)
Fixpoint dot_star_eol (s : string) : bool :=
  match s with
  | EmptyString => true
  | String c r => if Ascii.eqb c Str.LF then String.eqb r "" else dot_star_eol r
  end.

(** [(from|import) ] anchored at the start: the text after the keyword and
    the space. *)
Definition after_keyword (line : string) : option string :=
  match Str.after_prefix "from " line with
  | Some r => Some r
  | None => Str.after_prefix "import " line
  end.

(** [re.search(r'^(from|import) (?P<module>[A-Za-z_0-9\.]+).*$', line)]:
    the [module] group of the match, if there is one. *)
Definition import_regex (line : string) : option string :=
  match after_keyword line with
  | Some r =>
      let '(m, t) := span_module r in
      if String.eqb m "" then None
      else if dot_star_eol t then Some m else None
  | None => None
  end.

Definition get_module_name_from_import (imprt_line : string) : M string :=
  match import_regex imprt_line with
  | Some module => ret module
  | None =>
      raise (ValueError ("Couldn't get module name from '" +:+ imprt_line +:+ "'."))
  end.

(** *** get_import_lines *)

(** The test of the [if] in the loop: [or] binds weaker than [and]. *)
Definition import_start (line : string) : bool :=
  Str.startswith line "import" ||
  Str.startswith line "from" && negb (Str.startswith line "from __future__").

(** One iteration of the loop over the lines, on [(import_list, sub_list)]. *)
Definition scan_line (st : list string * list string) (line : string)
  : list string * list string :=
  let '(import_list, sub_list) := st in
  if import_start line then
    ((import_list ++ sub_list) ++ [Str.strip line], [])
  else if String.eqb line Str.nl && truthy import_list then
    (import_list, sub_list ++ [""])
  else st.

(** The loop over the lines read, and the [return]. *)
Definition scan_lines (lines : list string) : string * list string :=
  let '(import_list, _) := fold_left scan_line lines ([], []) in
  (Str.join Str.nl import_list,
   List.filter (fun i => negb (String.eqb i "")) import_list).

(** The body of [get_import_lines] on the contents of the open file. *)
Definition import_lines_of (contents : string) : string * list string :=
  scan_lines (Str.readlines contents).

(** *** sorted(..., key=lambda k: k.lower().split()[1]) *)

(** The key of a statement: the second word of its lower-cased text;
    indexing past the end raises [IndexError]. *)
Definition sort_key (k : string) : M string :=
  match Str.words (Str.lower k) with
  | _ :: w :: _ => ret w
  | _ => raise IndexError
  end.

Fixpoint map_m {A B} (f : A -> M B) (l : list A) : M (list B) :=
  match l with
  | [] => ret []
  | x :: r => y <- f x ;; ys <- map_m f r ;; ret (y :: ys)
  end.

(** Insertion of a decorated item [(key, item)] in front of a sorted list:
    it goes before the first item whose key is not smaller than its own,
    so that items with equal keys keep their order. *)
Fixpoint insert_by_key (x : string * string) (l : list (string * string))
  : list (string * string) :=
  match l with
  | [] => [x]
  | y :: r => if Str.lt (fst y) (fst x) then y :: insert_by_key x r else x :: l
  end.

(** The stable sort on keys; [sorted] is stable and compares with [<]. *)
Definition stable_sort (l : list (string * string)) : list (string * string) :=
  fold_right insert_by_key [] l.

(** [sorted(items, key=...)]: every key is computed first, then the items
    are sorted on them. *)
Definition sorted (items : list string) : M (list string) :=
  keys <- map_m sort_key items ;;
  ret (map snd (stable_sort (combine keys items))).

(** *** get_ordered_imports *)

(** What iterating over a value yields: the elements of a list, the
    one-character strings of a string. *)
Definition iter_items (v : pyval) : list string :=
  match v with
  | VList l => l
  | VStr s => map (fun c => String c EmptyString) (list_ascii_of_string s)
  end.

Definition CATEGORIES : list string := ["standard"; "third_party"; "local"].

(** One iteration of the first loop: the key is rebound in the dictionary
    the caller passed. *)
Definition order_key (grouped_imports : gmap string pyval) (key : string)
  : M (gmap string pyval) :=
  match grouped_imports !! key with
  | Some v =>
      l <- sorted (iter_items v) ;;
      ret (<[key := VStr (Str.join Str.nl l)]> grouped_imports)
  | None => ret (<[key := VStr ""]> grouped_imports)
  end.

Fixpoint order_keys (keys : list string) (grouped_imports : gmap string pyval)
  : M (gmap string pyval) :=
  match keys with
  | [] => ret grouped_imports
  | key :: r => g <- order_key grouped_imports key ;; order_keys r g
  end.

(** [grouped_imports[key]] where a string is expected. *)
Definition getitem_str (grouped_imports : gmap string pyval) (key : string)
  : M string :=
  match grouped_imports !! key with
  | Some (VStr s) => ret s
  | Some (VList _) => raise (Uncaught "TypeError")
  | None => raise (Uncaught "KeyError")
  end.

(** The generator of the [return]: the blocks that are not ''. *)
Fixpoint nonempty_blocks (keys : list string) (grouped_imports : gmap string pyval)
  : M (list string) :=
  match keys with
  | [] => ret []
  | key :: r =>
      s <- getitem_str grouped_imports key ;;
      bs <- nonempty_blocks r grouped_imports ;;
      ret (if String.eqb s "" then bs else s :: bs)
  end.

(** The result is the returned string together with the dictionary as the
    call leaves it: the argument is updated in place. *)
Definition get_ordered_imports (grouped_imports : gmap string pyval)
  : M (string * gmap string pyval) :=
  g <- order_keys CATEGORIES grouped_imports ;;
  bs <- nonempty_blocks CATEGORIES g ;;
  ret (Str.join (Str.nl +:+ Str.nl) bs, g).

Section Runtime.

(** [__import__] of the running interpreter. *)
Variable py_import : string -> import_result.
(** The file system: the contents of the regular files. *)
Variable read_file : string -> option string.
(** [difflib.unified_diff(a, b, fromfile=..., tofile=...)], as a list. *)
Variable unified_diff :
  list string -> list string -> string -> string -> list string.

(** *** load_module *)
Definition load_module (module_name : string) : M (option string) :=
  emit (EImport module_name) ;;;
  match py_import module_name with
  | Module repr => ret (Some repr)
  | ImportError =>
      emit (EStdout ("Cannot import '" +:+ module_name +:+ "'." +:+ Str.nl)) ;;;
      ret None
  | ImportRaises name => raise (Uncaught name)
  end.

(** *** is_standard_module *)
Definition is_standard_module (module : string) (override : option overrides)
  : M bool :=
  let override := default EMPTY_OVERRIDE override in
  if mem module (ov_standard override) then ret true
  else if mem module (ov_third_party override) || mem module (ov_local override)
  then ret false
  else
    module_ <- load_module module ;;
    match module_ with
    | None => ret false
    | Some module_repr =>
        ret (negb (Str.contains "site-packages" module_repr) &&
             existsb (fun path => Str.contains path module_repr)
               ["usr/lib/python"; "usr/lib64/python"; "built-in"])
    end.

(** *** is_third_party_module *)
Definition is_third_party_module (module : string) (override : option overrides)
  : M bool :=
  let override := default EMPTY_OVERRIDE override in
  if mem module (ov_third_party override) then ret true
  else if mem module (ov_standard override) || mem module (ov_local override)
  then ret false
  else
    module_ <- load_module module ;;
    match module_ with
    | None => ret false
    | Some module_repr =>
        ret (Str.contains "site-packages" module_repr &&
             existsb (fun path => Str.contains path module_repr)
               ["usr/lib/python"; "usr/lib64/python"])
    end.

(** *** construct_import_dict *)

(** [d[key] += [x]] on a [defaultdict(list)]. *)
Definition dict_append (d : gmap string (list string)) (key x : string)
  : gmap string (list string) :=
  <[key := default [] (d !! key) ++ [x]]> d.

(** The body of the loop over the import lines. *)
Definition group_line (override : option overrides)
  (final_imports : gmap string (list string)) (import_line : string)
  : M (gmap string (list string)) :=
  mod_name <- get_module_name_from_import import_line ;;
  if String.eqb mod_name "." then
    ret (dict_append final_imports "local" import_line)
  else
    std <- is_standard_module mod_name override ;;
    if std then ret (dict_append final_imports "standard" import_line)
    else
      tp <- is_third_party_module mod_name override ;;
      if tp then ret (dict_append final_imports "third_party" import_line)
      else ret (dict_append final_imports "local" import_line).

Fixpoint group_lines (override : option overrides)
  (final_imports : gmap string (list string)) (import_lines : list string)
  : M (gmap string (list string)) :=
  match import_lines with
  | [] => ret final_imports
  | import_line :: r =>
      d <- group_line override final_imports import_line ;;
      group_lines override d r
  end.

Definition construct_import_dict (import_lines : list string)
  (override : option overrides) : M (gmap string (list string)) :=
  group_lines override ∅ import_lines.

(** *** verify_imports_order *)
Definition verify_imports_order (actual expected filename : string) : M nat :=
  let actual := map (fun l => l +:+ Str.nl) (Str.split Str.LF actual) in
  let expected := map (fun l => l +:+ Str.nl) (Str.split Str.LF expected) in
  let diff := unified_diff actual expected filename "expected" in
  (Return (if truthy diff then 1 else 0), map EStdout diff).

(** *** sanity_check *)
Definition sanity_check (py_file : string) : M bool :=
  match read_file py_file with
  | Some _ => ret true
  | None =>
      emit (EStderr ("File '" +:+ py_file +:+ "' doesn't exist." +:+ Str.nl)) ;;;
      ret false
  end.

(** *** get_import_lines *)
Definition get_import_lines (py_file : string) : M (string * list string) :=
  match read_file py_file with
  | Some contents => ret (import_lines_of contents)
  | None => raise (IOError py_file)
  end.

(** *** main *)

Definition _sanitize_cmd_line_opt (cmd_line_opt : string) : list string :=
  map Str.strip (Str.split "," cmd_line_opt).

(** The [override] dictionary built in the loop of [main]. *)
Definition main_override (args : clargs) : overrides :=
  {| ov_standard := _sanitize_cmd_line_opt (cl_standard args);
     ov_third_party := _sanitize_cmd_line_opt (cl_third_party args);
     ov_local := _sanitize_cmd_line_opt (cl_third_party args) |}.

(** What the loop of [main] does with a file that passed the sanity
    check; the result is what is added to [exit_status]. *)
Definition check_file (args : clargs) (py_file : string) : M nat :=
  r <- get_import_lines py_file ;;
  let '(imports_string, import_lines) := r in
  let override := main_override args in
  import_dict <- construct_import_dict import_lines (Some override) ;;
  o <- get_ordered_imports (VList <$> import_dict) ;;
  let '(ordered_imports, _) := o in
  verify_imports_order imports_string ordered_imports py_file.

Fixpoint main_loop (args : clargs) (files : list string) (exit_status : nat)
  : M nat :=
  match files with
  | [] => ret exit_status
  | py_file :: r =>
      ok <- sanity_check py_file ;;
      if negb ok then main_loop args r (exit_status + 1)
      else
        n <- check_file args py_file ;;
        main_loop args r (exit_status + n)
  end.

(** The value is the argument of [sys.exit]: [exit_status > 0]. *)
Definition main (args : clargs) : M bool :=
  exit_status <- main_loop args (cl_files args) 0 ;;
  ret (0 <? exit_status).

End Runtime.

(** ** Auxiliary definitions for the statements *)

(** The command line with another value for [--local]. *)
Definition set_local (v : string) (args : clargs) : clargs :=
  {| cl_standard := cl_standard args;
     cl_third_party := cl_third_party args;
     cl_local := v;
     cl_files := cl_files args |}.

(** The text whose lines are [l], each terminated by LF. *)
Definition text_of_lines (l : list string) : string :=
  fold_right (fun line r => line +:+ Str.nl +:+ r) "" l.

(** A small interpreter state used to run the program on examples. *)
Module Demo.

Definition import_ (m : string) : import_result :=
  if String.eqb m "os" then
    Module "<module 'os' from '/usr/lib/python2.7/os.pyc'>"
  else if String.eqb m "sys" then Module "<module 'sys' (built-in)>"
  else if String.eqb m "cv2" then
    Module "<module 'cv2' from '/usr/lib/python2.7/site-packages/cv2.so'>"
  else ImportError.

(** An interpreter in which every import blows up. *)
Definition broken_import (m : string) : import_result :=
  ImportRaises "SystemError".

(** A diff that reports nothing on equal inputs and one line otherwise. *)
Definition diff (a b : list string) (fromfile tofile : string) : list string :=
  if decide (a = b) then [] else ["--- " +:+ fromfile +:+ Str.nl].

Definition unsorted_py : string :=
  text_of_lines
    ["#!/usr/bin/env python"; "";
     "import sys"; "from __future__ import print_function"; "import cv2";
     ""; "from . import helper  "; "import os"; "";
     "def f():"; "    import zz"].

Definition unsorted_fromage : string :=
  text_of_lines ["import os"; ""; "fromage = 1"; "print(fromage)"].

(** Two imports with a statement and blank lines between them. *)
Definition gap_py : string :=
  text_of_lines ["import os"; ""; "x = 1"; ""; "import sys"].

Definition files (contents : string) (path : string) : option string :=
  if String.eqb path "a.py" then Some contents else None.

Definition args : clargs :=
  {| cl_standard := ""; cl_third_party := " cv2, numpy ";
     cl_local := "mine"; cl_files := ["a.py"; "missing.py"] |}.

End Demo.

(** Every character of [s] satisfies [P]. *)
Fixpoint str_forall (P : ascii -> bool) (s : string) : bool :=
  match s with
  | EmptyString => true
  | String c r => P c && str_forall P r
  end.

(** The grammar '^(from|import) <dotted identifier>': one of the two
    keywords, a space, and a non-empty run of the characters of dotted
    identifiers, followed by anything. *)
Definition import_grammar (s : string) : Prop :=
  exists kw m rest : string,
    (kw = "from" \/ kw = "import") /\
    m <> "" /\ str_forall module_char m = true /\
    s = kw +:+ " " +:+ m +:+ rest.

(** When the interpreter's import machinery raises nothing but
    [ImportError], the only exception of the grouper is [ValueError]. *)
Definition import_safe (py_import : string -> import_result) : Prop :=
  forall m name, py_import m <> ImportRaises name.

(** The same grammar as a test: after the keyword and the space comes a
    character of dotted identifiers. *)
Definition import_grammarb (s : string) : bool :=
  match after_keyword s with
  | Some (String c _) => module_char c
  | _ => false
  end.

(** What the orderer iterates over for a key: the items of the value bound
    to it, nothing when the key is absent. *)
Definition items_of (g : gmap string pyval) (key : string) : list string :=
  match g !! key with
  | Some v => iter_items v
  | None => []
  end.

(** The sort key of a statement, when it has one. *)
Definition key_of (s : string) : option string :=
  match Str.words (Str.lower s) with
  | _ :: w :: _ => Some w
  | _ => None
  end.

(** No LF in [s]. *)
Definition single_line (s : string) : bool :=
  str_forall (fun c => negb (Ascii.eqb c Str.LF)) s.

(** A statement as the orderer expects it: one line of text with at least
    two words, the second being the name it is sorted on. *)
Definition statement_line (s : string) : bool :=
  single_line s && bool_decide (is_Some (key_of s)).

(** The groups laid out as lines, one empty line between two groups. *)
Fixpoint with_blanks (groups : list (list string)) : list string :=
  match groups with
  | [] => []
  | [g] => g
  | g :: r => g ++ "" :: with_blanks r
  end.

(** No two consecutive empty lines. *)
Fixpoint no_blank_run (lines : list string) : bool :=
  match lines with
  | x :: r =>
      match r with
      | y :: _ => negb (String.eqb x "" && String.eqb y "")
      | [] => true
      end && no_blank_run r
  | [] => true
  end.

(** The text and the dictionary [get_ordered_imports] ends with, in terms of
    the three sorted lists. *)
Definition ordered_text (l1 l2 l3 : list string) : string :=
  Str.join (Str.nl +:+ Str.nl)
    (List.filter (fun b => negb (String.eqb b ""))
       [Str.join Str.nl l1; Str.join Str.nl l2; Str.join Str.nl l3]).

Definition ordered_dict (g : gmap string pyval) (l1 l2 l3 : list string)
  : gmap string pyval :=
  <["local" := VStr (Str.join Str.nl l3)]>
    (<["third_party" := VStr (Str.join Str.nl l2)]>
       (<["standard" := VStr (Str.join Str.nl l1)]> g)).

(** The decorated list is sorted on its keys: no item has a key smaller
    than the key of the item before it. *)
Fixpoint key_sorted (l : list (string * string)) : Prop :=
  match l with
  | x :: r =>
      match r with
      | y :: _ => Str.lt (fst y) (fst x) = false
      | [] => True
      end /\ key_sorted r
  | [] => True
  end.

(** A statement as the extractor returns it: a stripped line that starts
    like an import. *)
Definition extracted (s : string) : Prop :=
  import_start s = true /\ Str.strip s = s /\ single_line s = true.

(** The lines of a text read back by [readlines]: all but the last one
    carry their LF. *)
Fixpoint terminated (l : list string) : list string :=
  match l with
  | [] => []
  | [x] => [x]
  | x :: r => (x +:+ Str.nl) :: terminated r
  end.

(** The key under which the loop body of [construct_import_dict] files a
    statement: the same tests in the same order, without the dictionary. *)
Definition category_of (py_import : string -> import_result)
  (override : option overrides) (import_line : string) : M string :=
  mod_name <- get_module_name_from_import import_line ;;
  if String.eqb mod_name "." then ret "local"
  else
    std <- is_standard_module py_import mod_name override ;;
    if std then ret "standard"
    else
      tp <- is_third_party_module py_import mod_name override ;;
      if tp then ret "third_party" else ret "local".

(** How [category_of] ends, whatever it printed. *)
Definition cat_of (py_import : string -> import_result)
  (override : option overrides) (import_line : string) : outcome string :=
  result (category_of py_import override import_line).

(** Grouping with a given assignment of keys to statements. *)
Fixpoint group_pure (cat : string -> outcome string)
  (d : gmap string (list string)) (l : list string)
  : outcome (gmap string (list string)) :=
  match l with
  | [] => Return d
  | s :: r =>
      match cat s with
      | Return k => group_pure cat (dict_append d k s) r
      | Raise e => Raise e
      end
  end.

(** The statements of [l] that go under [key], in their order. *)
Definition bucket (cat : string -> outcome string) (key : string)
  (l : list string) : list string :=
  List.filter
    (fun s => match cat s with Return k => String.eqb k key | Raise _ => false end) l.

(** Extract, group, order: the canonical text for the contents of a file,
    as [main] computes it for each file. *)
Definition pipeline (py_import : string -> import_result)
  (override : option overrides) (contents : string) : M string :=
  let '(_, import_lines) := import_lines_of contents in
  import_dict <- construct_import_dict py_import import_lines override ;;
  o <- get_ordered_imports (VList <$> import_dict) ;;
  ret (fst o).

(** The module is in none of the three override lists. *)
Definition unlisted (override : option overrides) (module : string) : Prop :=
  let ov := default EMPTY_OVERRIDE override in
  ~ In module (ov_standard ov) /\ ~ In module (ov_third_party ov) /\
  ~ In module (ov_local ov).

(** The test of [is_standard_module] on the [repr] of an imported module. *)
Definition standard_repr (module_repr : string) : bool :=
  negb (Str.contains "site-packages" module_repr) &&
  existsb (fun path => Str.contains path module_repr)
    ["usr/lib/python"; "usr/lib64/python"; "built-in"].

(** The test of [is_third_party_module] on the [repr] of an imported module. *)
Definition third_party_repr (module_repr : string) : bool :=
  Str.contains "site-packages" module_repr &&
  existsb (fun path => Str.contains path module_repr)
    ["usr/lib/python"; "usr/lib64/python"].

(** The message [load_module] prints when the import fails. *)
Definition cannot_import (module_name : string) : event :=
  EStdout ("Cannot import '" +:+ module_name +:+ "'." +:+ Str.nl).

(** What a line of the file contributes to the import block: its stripped
    text for an import line, an empty entry for a line that is exactly LF. *)
Definition block_entry (line : string) : string :=
  if import_start line then Str.strip line else "".

(** The import lines and the blank lines of a file, as entries. *)
Definition block_entries (lines : list string) : list string :=
  map block_entry
    (List.filter (fun line => import_start line || String.eqb line Str.nl) lines).

(** Without the empty entries at the front. *)
Fixpoint ltrim_blank (l : list string) : list string :=
  match l with
  | [] => []
  | x :: r => if String.eqb x "" then ltrim_blank r else l
  end.

(** Without the empty entries at the end. *)
Fixpoint rtrim_blank (l : list string) : list string :=
  match l with
  | [] => []
  | x :: r =>
      match rtrim_blank r with
      | [] => if String.eqb x "" then [] else [x]
      | r' => x :: r'
      end
  end.

(** The character [c] does not occur in [s]. *)
Definition no_char (c : ascii) (s : string) : bool :=
  str_forall (fun x => negb (Ascii.eqb x c)) s.

(** A module name as [_sanitize_cmd_line_opt] leaves it: stripped, and
    without a comma. *)
Definition sanitized_name (o : string) : Prop :=
  Str.strip o = o /\ no_char "," o = true.

(** * Properties *)

(** ** The monad *)

Lemma bind_ret_l {A B} (a : A) (k : A -> M B) : bind (ret a) k = k a.
Proof. unfold bind, ret. destruct (k a); reflexivity. Qed.

Lemma bind_raise {A B} (e : exn) (k : A -> M B) : bind (raise e) k = raise e.
Proof. reflexivity. Qed.

Lemma result_bind {A B} (m : M A) (k : A -> M B) :
  result (bind m k) =
  match result m with
  | Return a => result (k a)
  | Raise e => Raise e
  end.
Proof.
  destruct m as [[a|e] w]; simpl; [|reflexivity].
  destruct (k a); reflexivity.
Qed.

Lemma result_bind_raise {A B} (m : M A) (k : A -> M B) e :
  result m = Raise e -> result (bind m k) = Raise e.
Proof. intros H. rewrite result_bind, H. reflexivity. Qed.

Lemma result_bind_return {A B} (m : M A) (k : A -> M B) a :
  result m = Return a -> result (bind m k) = result (k a).
Proof. intros H. rewrite result_bind, H. reflexivity. Qed.

(** ** C1: the --local option *)

Lemma main_loop_set_local py_import read_file unified_diff v args files n :
  main_loop py_import read_file unified_diff (set_local v args) files n =
  main_loop py_import read_file unified_diff args files n.
Proof.
  revert n. induction files as [|f r IH]; intros n; simpl; [reflexivity|].
  unfold bind.
  destruct (sanity_check read_file f) as [[[|]|e] w]; simpl;
    [|rewrite IH; reflexivity|reflexivity].
  change (check_file py_import read_file unified_diff (set_local v args) f)
    with (check_file py_import read_file unified_diff args f).
  destruct (check_file py_import read_file unified_diff args f) as [[k|e] w'];
    [rewrite IH|]; reflexivity.
Qed.

(** C1. Whatever the command line, the 'local' list of the override
    dictionary handed to [construct_import_dict] is the sanitized
    [--third_party] value; the value of [--local] is never read: replacing
    it changes neither the override dictionary nor anything [main] does or
    returns. On some command lines the 'local' list therefore differs from
    the sanitized [--local] value. *)
Theorem local_option_never_read :
  (forall args : clargs,
      ov_local (main_override args) = _sanitize_cmd_line_opt (cl_third_party args)) /\
  (forall (v : string) (args : clargs),
      main_override (set_local v args) = main_override args) /\
  (forall py_import read_file unified_diff (v : string) (args : clargs),
      main py_import read_file unified_diff (set_local v args) =
      main py_import read_file unified_diff args) /\
  ov_local (main_override Demo.args) = ["cv2"; "numpy"] /\
  _sanitize_cmd_line_opt (cl_local Demo.args) = ["mine"].
Proof.
  split; [reflexivity|]. split; [reflexivity|]. split; [|split; reflexivity].
  intros. unfold main. simpl. rewrite main_loop_set_local. reflexivity.
Qed.

(** ** C3: the standard override list *)

Lemma mem_In (x : string) (l : list string) : mem x l = true <-> In x l.
Proof.
  unfold mem. rewrite existsb_exists. split.
  - intros [y [Hy Heq]]. apply String.eqb_eq in Heq. subst y. exact Hy.
  - intros H. exists x. split; [exact H | apply String.eqb_refl].
Qed.

(** C3. A module name that occurs in the 'standard' list of the overrides
    is classified as standard by [is_standard_module], for every behaviour
    of the interpreter's import machinery: the answer is [True] and the
    module is not even imported, so neither a failing resolution nor the
    [repr] of the resolved module can change it. *)
Theorem standard_override_is_standard :
  forall (py_import : string -> import_result) (module : string) (ov : overrides),
    In module (ov_standard ov) ->
    is_standard_module py_import module (Some ov) = (Return true, []).
Proof.
  intros py_import module ov Hin. unfold is_standard_module. simpl.
  apply mem_In in Hin. rewrite Hin. reflexivity.
Qed.

Lemma standard_override_is_standard_witness :
  In "cv2" (ov_standard {| ov_standard := ["numpy"; "cv2"];
                           ov_third_party := []; ov_local := [] |}) /\
  is_standard_module Demo.broken_import "cv2"
    (Some {| ov_standard := ["numpy"; "cv2"];
             ov_third_party := []; ov_local := [] |}) = (Return true, []).
Proof.
  split; [simpl; tauto|].
  apply (standard_override_is_standard Demo.broken_import "cv2"
           {| ov_standard := ["numpy"; "cv2"];
              ov_third_party := []; ov_local := [] |}).
  simpl; tauto.
Defined.

(** ** C6: the documented example of the orderer *)

(** C6. On the dictionary with standard = ["import built_in"],
    third_party = ["import z_third_party", "import a_third_party"] and
    local = ["import last"], [get_ordered_imports] returns the three blocks
    in that order, the third-party block sorted, with one empty line between
    two blocks. *)
Theorem ordered_imports_example :
  exists g' : gmap string pyval,
    get_ordered_imports
      (<["local" := VList ["import last"]]>
         (<["third_party" := VList ["import z_third_party"; "import a_third_party"]]>
            (<["standard" := VList ["import built_in"]]> ∅))) =
    (Return
       ("import built_in" +:+ Str.nl +:+ Str.nl +:+
        "import a_third_party" +:+ Str.nl +:+
        "import z_third_party" +:+ Str.nl +:+ Str.nl +:+
        "import last", g'), []).
Proof. eexists. vm_compute. reflexivity. Qed.

(** ** C7: relative imports *)

(** C7. A statement whose module name is the sentinel '.' is put in the
    'local' list by the loop body of [construct_import_dict] without any
    call of the classifier reaching the interpreter: no import is attempted
    and nothing is printed, whatever the overrides (also when they list '.'
    as standard or third party, or are absent) and whatever the import
    machinery would do. In particular "from . import function" is grouped
    as local. *)
Theorem relative_import_is_local :
  (forall (py_import : string -> import_result) (override : option overrides)
          (final_imports : gmap string (list string)) (import_line : string),
      get_module_name_from_import import_line = ret "." ->
      group_line py_import override final_imports import_line =
      (Return (dict_append final_imports "local" import_line), [])) /\
  (forall (py_import : string -> import_result) (override : option overrides),
      get_module_name_from_import "from . import function" = ret "." /\
      construct_import_dict py_import ["from . import function"] override =
      (Return {["local" := ["from . import function"]]}, [])).
Proof.
  split.
  - intros py_import override final_imports import_line H.
    unfold group_line. rewrite H, bind_ret_l. reflexivity.
  - intros py_import override. split; [reflexivity|].
    vm_compute. reflexivity.
Qed.

Lemma relative_import_is_local_witness :
  get_module_name_from_import "from . import utils" = ret "." /\
  group_line Demo.broken_import
    (Some {| ov_standard := ["."]; ov_third_party := []; ov_local := [] |})
    {["local" := ["import mine"]]} "from . import utils" =
  (Return (dict_append {["local" := ["import mine"]]} "local" "from . import utils"), []).
Proof.
  split; [reflexivity|].
  apply (proj1 relative_import_is_local Demo.broken_import
           (Some {| ov_standard := ["."]; ov_third_party := []; ov_local := [] |})
           {["local" := ["import mine"]]} "from . import utils").
  reflexivity.
Defined.

(** ** Strings *)

Lemma sapp_cons (c : ascii) (s t : string) : String c s +:+ t = String c (s +:+ t).
Proof. reflexivity. Qed.

Lemma sapp_nil_l (s : string) : "" +:+ s = s.
Proof. reflexivity. Qed.

Lemma sapp_nil_r (s : string) : s +:+ "" = s.
Proof. induction s as [|c s IH]; [reflexivity|]. rewrite sapp_cons, IH. reflexivity. Qed.

Lemma sapp_assoc (s t u : string) : (s +:+ t) +:+ u = s +:+ t +:+ u.
Proof.
  induction s as [|c s IH]; [reflexivity|]. rewrite !sapp_cons, IH. reflexivity.
Qed.

Lemma sapp_eq_nil (s t : string) : s +:+ t = "" -> s = "" /\ t = "".
Proof. destruct s; [rewrite sapp_nil_l; auto | rewrite sapp_cons; discriminate]. Qed.

Lemma prefix_app (p r : string) : String.prefix p (p +:+ r) = true.
Proof.
  induction p as [|c p IH]; [destruct r; reflexivity|].
  rewrite sapp_cons. simpl. destruct (ascii_dec c c); [exact IH | congruence].
Qed.

Lemma prefix_inv (p s : string) :
  String.prefix p s = true -> exists r, s = p +:+ r.
Proof.
  revert s. induction p as [|c p IH]; intros s H.
  - exists s. reflexivity.
  - destruct s as [|b s]; simpl in H; [discriminate|].
    destruct (ascii_dec c b) as [->|]; [|discriminate].
    destruct (IH s H) as [r ->]. exists r. reflexivity.
Qed.

Lemma prefix_iff (p s : string) :
  String.prefix p s = true <-> exists r, s = p +:+ r.
Proof.
  split; [apply prefix_inv|]. intros [r ->]. apply prefix_app.
Qed.

Lemma prefix_app_r (p s t : string) :
  String.prefix p s = true -> String.prefix p (s +:+ t) = true.
Proof.
  intros [r ->]%prefix_inv. rewrite sapp_assoc. apply prefix_app.
Qed.

Lemma after_prefix_app (p s r : string) :
  Str.after_prefix p s = Some r -> s = p +:+ r.
Proof.
  revert s. induction p as [|c p IH]; intros s H; simpl in H.
  - injection H as ->. reflexivity.
  - destruct s as [|b s]; [discriminate|].
    destruct (Ascii.eqb_spec c b) as [->|]; [|discriminate].
    rewrite (IH _ H). reflexivity.
Qed.

Lemma span_module_app (s m t : string) :
  span_module s = (m, t) -> s = m +:+ t /\ str_forall module_char m = true.
Proof.
  revert m t. induction s as [|c s IH]; intros m t H; simpl in H.
  - injection H as <- <-. split; reflexivity.
  - destruct (module_char c) eqn:Hc.
    + destruct (span_module s) as [m' t'] eqn:Hs. injection H as <- <-.
      destruct (IH _ _ eq_refl) as [-> Hm]. split; [reflexivity|].
      simpl. rewrite Hc, Hm. reflexivity.
    + injection H as <- <-. split; reflexivity.
Qed.

(** ** C8: statements outside the import-line grammar *)

Lemma import_regex_grammar (s m : string) :
  import_regex s = Some m -> import_grammar s.
Proof.
  unfold import_regex, after_keyword. intros H.
  assert (exists kw r, (kw = "from" \/ kw = "import") /\ s = kw +:+ " " +:+ r /\
            (let '(m0, t) := span_module r in
             if String.eqb m0 "" then None
             else if dot_star_eol t then Some m0 else None) = Some m)
    as (kw & r & Hkw & -> & Hm).
  { destruct (Str.after_prefix "from " s) as [r|] eqn:H1.
    - exists "from", r. split; [auto|]. split; [|exact H].
      apply after_prefix_app in H1. exact H1.
    - destruct (Str.after_prefix "import " s) as [r|] eqn:H2; [|discriminate].
      exists "import", r. split; [auto|]. split; [|exact H].
      apply after_prefix_app in H2. exact H2. }
  destruct (span_module r) as [m0 t] eqn:Hs.
  destruct (String.eqb_spec m0 "") as [|Hne]; [discriminate|].
  apply span_module_app in Hs as [-> Hall].
  exists kw, m0, t. auto.
Qed.

Lemma not_grammar_regex (s : string) : ~ import_grammar s -> import_regex s = None.
Proof.
  intros H. destruct (import_regex s) as [m|] eqn:E; [|reflexivity].
  exfalso. apply H. exact (import_regex_grammar _ _ E).
Qed.

Lemma group_line_unparseable py_import override d s :
  import_regex s = None ->
  group_line py_import override d s =
  raise (ValueError ("Couldn't get module name from '" +:+ s +:+ "'.")).
Proof.
  intros H. unfold group_line, get_module_name_from_import. rewrite H. reflexivity.
Qed.

Lemma group_lines_unparseable py_import override l s :
  In s l -> import_regex s = None ->
  forall d, exists e, result (group_lines py_import override d l) = Raise e.
Proof.
  intros Hin Hs. induction l as [|x r IH]; [destruct Hin|]. intros d. simpl.
  rewrite result_bind.
  destruct (result (group_line py_import override d x)) as [d'|e] eqn:E;
    [|eauto].
  destruct Hin as [->|Hin]; [|apply IH; exact Hin].
  rewrite group_line_unparseable in E by exact Hs. discriminate.
Qed.

Lemma load_module_safe py_import m :
  import_safe py_import -> exists r, result (load_module py_import m) = Return r.
Proof.
  intros Hs. unfold load_module, bind, emit. simpl.
  destruct (py_import m) eqn:E; simpl; eauto.
  exfalso. exact (Hs _ _ E).
Qed.

Lemma is_standard_module_safe py_import m ov :
  import_safe py_import ->
  exists b, result (is_standard_module py_import m ov) = Return b.
Proof.
  intros Hs. unfold is_standard_module.
  destruct (mem m _); [eauto|]. destruct (_ || _); [eauto|].
  rewrite result_bind. destruct (load_module_safe py_import m Hs) as [r ->].
  destruct r; eauto.
Qed.

Lemma is_third_party_module_safe py_import m ov :
  import_safe py_import ->
  exists b, result (is_third_party_module py_import m ov) = Return b.
Proof.
  intros Hs. unfold is_third_party_module.
  destruct (mem m _); [eauto|]. destruct (_ || _); [eauto|].
  rewrite result_bind. destruct (load_module_safe py_import m Hs) as [r ->].
  destruct r; eauto.
Qed.

Lemma group_line_raises_value_error py_import override d s e :
  import_safe py_import ->
  result (group_line py_import override d s) = Raise e ->
  e = ValueError ("Couldn't get module name from '" +:+ s +:+ "'.").
Proof.
  intros Hs. unfold group_line, get_module_name_from_import.
  destruct (import_regex s) as [m|]; [|simpl; congruence].
  rewrite bind_ret_l. destruct (String.eqb m "."); [discriminate|].
  rewrite result_bind.
  destruct (is_standard_module_safe py_import m override Hs) as [b ->].
  destruct b; [discriminate|]. rewrite result_bind.
  destruct (is_third_party_module_safe py_import m override Hs) as [b ->].
  destruct b; discriminate.
Qed.

Lemma group_lines_raises_value_error py_import override l e :
  import_safe py_import ->
  forall d, result (group_lines py_import override d l) = Raise e ->
  exists s, In s l /\ e = ValueError ("Couldn't get module name from '" +:+ s +:+ "'.").
Proof.
  intros Hs. induction l as [|x r IH]; intros d; simpl; [discriminate|].
  rewrite result_bind.
  destruct (result (group_line py_import override d x)) as [d'|e'] eqn:E.
  - intros H. destruct (IH _ H) as (s & Hin & ->). eauto.
  - intros [= <-]. exists x. split; [auto|].
    exact (group_line_raises_value_error _ _ _ _ _ Hs E).
Qed.

Lemma import_grammarb_spec (s : string) :
  import_grammarb s = true <-> import_grammar s.
Proof.
  unfold import_grammarb, after_keyword. split.
  - intros H.
    assert (exists kw c r, (kw = "from" \/ kw = "import") /\
              s = kw +:+ " " +:+ String c r /\ module_char c = true)
      as (kw & c & r & Hkw & -> & Hc).
    { destruct (Str.after_prefix "from " s) as [[|c r]|] eqn:H1; try discriminate.
      - exists "from", c, r. apply after_prefix_app in H1. auto.
      - destruct (Str.after_prefix "import " s) as [[|c r]|] eqn:H2;
          try discriminate.
        exists "import", c, r. apply after_prefix_app in H2. auto. }
    exists kw, (String c ""), r. repeat split; try assumption.
    + discriminate.
    + simpl. rewrite Hc. reflexivity.
  - intros (kw & m & rest & Hkw & Hne & Hall & ->).
    destruct m as [|c m]; [congruence|]. simpl in Hall.
    apply andb_true_iff in Hall as [Hc _].
    destruct Hkw as [-> | ->]; cbv [String.append Str.after_prefix Ascii.eqb Bool.eqb];
      simpl; exact Hc.
Qed.

Lemma sanity_check_result read_file f :
  result (sanity_check read_file f) =
  Return (match read_file f with Some _ => true | None => false end).
Proof. unfold sanity_check. destruct (read_file f); reflexivity. Qed.

Lemma main_loop_aborts py_import read_file unified_diff args f files :
  In f files ->
  (exists e, result (check_file py_import read_file unified_diff args f) = Raise e) ->
  is_Some (read_file f) ->
  forall n, exists e,
    result (main_loop py_import read_file unified_diff args files n) = Raise e.
Proof.
  intros Hin [e He] [text Hf]. induction files as [|x r IH]; [destruct Hin|].
  intros n. simpl. rewrite result_bind, sanity_check_result.
  destruct (read_file x) eqn:Hx; simpl.
  - rewrite result_bind.
    destruct (result (check_file py_import read_file unified_diff args x))
      as [k|e'] eqn:E; [|eauto].
    destruct Hin as [->|Hin]; [congruence|]. apply IH. exact Hin.
  - destruct Hin as [->|Hin]; [congruence|]. apply IH. exact Hin.
Qed.

Lemma main_aborts py_import read_file unified_diff args f :
  In f (cl_files args) ->
  (exists e, result (check_file py_import read_file unified_diff args f) = Raise e) ->
  is_Some (read_file f) ->
  exists e, result (main py_import read_file unified_diff args) = Raise e.
Proof.
  intros Hin He Hf. unfold main.
  destruct (main_loop_aborts _ _ _ _ _ _ Hin He Hf 0) as [e E].
  exists e. apply result_bind_raise. exact E.
Qed.

Lemma check_file_unparseable py_import read_file unified_diff args f text s :
  read_file f = Some text ->
  In s (snd (import_lines_of text)) ->
  import_regex s = None ->
  exists e, result (check_file py_import read_file unified_diff args f) = Raise e.
Proof.
  intros Hf Hin Hs. unfold check_file, get_import_lines. rewrite Hf, bind_ret_l.
  destruct (import_lines_of text) as [raw stmts]. simpl in Hin.
  destruct (group_lines_unparseable py_import (Some (main_override args))
              stmts s Hin Hs ∅) as [e E].
  exists e. apply result_bind_raise. exact E.
Qed.

(** C8. A statement outside the grammar '^(from|import) <dotted identifier>'
    makes [get_module_name_from_import] raise [ValueError]; the grouper
    run on a list that contains such a statement ends with an exception
    (a [ValueError] of that function when the interpreter's imports raise at
    most [ImportError]); and [main] ends with an exception as soon as one of
    its files yields such a statement: nothing on the way catches it. *)
Theorem unparseable_statement_aborts :
  (forall s : string,
      ~ import_grammar s ->
      get_module_name_from_import s =
      raise (ValueError ("Couldn't get module name from '" +:+ s +:+ "'."))) /\
  (forall py_import override (import_lines : list string) (s : string),
      In s import_lines -> ~ import_grammar s ->
      exists e,
        result (construct_import_dict py_import import_lines override) = Raise e /\
        (import_safe py_import ->
         exists s', In s' import_lines /\
           e = ValueError ("Couldn't get module name from '" +:+ s' +:+ "'."))) /\
  (forall py_import read_file unified_diff (args : clargs) (f text s : string),
      In f (cl_files args) -> read_file f = Some text ->
      In s (snd (import_lines_of text)) -> ~ import_grammar s ->
      exists e, result (main py_import read_file unified_diff args) = Raise e).
Proof.
  split; [|split].
  - intros s H. unfold get_module_name_from_import.
    rewrite (not_grammar_regex s H). reflexivity.
  - intros py_import override l s Hin H.
    destruct (group_lines_unparseable py_import override l s Hin
                (not_grammar_regex s H) ∅) as [e E].
    exists e. split; [exact E|]. intros Hsafe.
    exact (group_lines_raises_value_error _ _ _ _ Hsafe _ E).
  - intros py_import read_file unified_diff args f text s Hf Hr Hin H.
    apply (main_aborts _ _ _ _ f Hf); [|rewrite Hr; eauto].
    exact (check_file_unparseable _ _ _ _ _ _ _ Hr Hin (not_grammar_regex s H)).
Qed.

Lemma unparseable_statement_aborts_witness :
  ~ import_grammar "import" /\
  get_module_name_from_import "import" =
  raise (ValueError ("Couldn't get module name from '" +:+ "import" +:+ "'.")).
Proof.
  assert (H : ~ import_grammar "import").
  { intros H. apply import_grammarb_spec in H. vm_compute in H. discriminate. }
  split; [exact H|].
  exact (proj1 unparseable_statement_aborts "import" H).
Defined.

(** ** The extractor *)

Lemma rstrip_cons_nonspace (c : ascii) (r : string) :
  Str.isspace c = false -> exists r', Str.rstrip (String c r) = String c r'.
Proof.
  intros Hc. simpl. destruct (Str.rstrip r); rewrite ?Hc; eauto.
Qed.

Lemma strip_cons_nonspace (c : ascii) (r : string) :
  Str.isspace c = false -> exists r', Str.strip (String c r) = String c r'.
Proof.
  intros Hc. unfold Str.strip. simpl Str.lstrip. rewrite Hc.
  apply rstrip_cons_nonspace. exact Hc.
Qed.

Lemma import_start_cases (line : string) :
  import_start line = true <->
  String.prefix "import" line = true \/
  (String.prefix "from" line = true /\ String.prefix "from __future__" line = false).
Proof.
  unfold import_start, Str.startswith.
  rewrite orb_true_iff, andb_true_iff, negb_true_iff. reflexivity.
Qed.

Lemma import_start_head (line : string) :
  import_start line = true ->
  exists c r, line = String c r /\ Str.isspace c = false.
Proof.
  intros [H|[H _]]%import_start_cases; apply prefix_inv in H as [r ->];
    rewrite sapp_cons; eexists _, _; split; reflexivity.
Qed.

Lemma strip_import_start (line : string) :
  import_start line = true -> Str.strip line <> "".
Proof.
  intros (c & r & -> & Hc)%import_start_head.
  destruct (strip_cons_nonspace c r Hc) as [r' ->]. discriminate.
Qed.

Lemma filter_blank (pend : list string) :
  Forall (eq "") pend ->
  List.filter (fun i => negb (String.eqb i "")) pend = [].
Proof.
  induction 1 as [|x l <- _ IH]; [reflexivity|]. simpl. exact IH.
Qed.

Lemma scan_fold_statements (lines : list string) :
  forall il pend,
    Forall (eq "") pend ->
    List.filter (fun i => negb (String.eqb i ""))
      (fst (fold_left scan_line lines (il, pend))) =
    List.filter (fun i => negb (String.eqb i "")) il ++
    map Str.strip (List.filter import_start lines).
Proof.
  induction lines as [|l r IH]; intros il pend Hp; simpl.
  - rewrite List.app_nil_r. reflexivity.
  - destruct (import_start l) eqn:Hl.
    + rewrite IH by constructor. rewrite !List.filter_app, (filter_blank pend Hp).
      simpl. destruct (String.eqb_spec (Str.strip l) "") as [E|_].
      * exfalso. exact (strip_import_start l Hl E).
      * simpl. rewrite List.app_nil_r, <- List.app_assoc. reflexivity.
    + destruct (String.eqb l Str.nl && truthy il).
      * apply IH. apply Forall_app. split; [exact Hp|]. repeat constructor.
      * apply IH. exact Hp.
Qed.

Lemma scan_lines_statements (lines : list string) :
  snd (scan_lines lines) = map Str.strip (List.filter import_start lines).
Proof.
  unfold scan_lines.
  pose proof (scan_fold_statements lines [] [] (List.Forall_nil _)) as H.
  destruct (fold_left scan_line lines ([], [])) as [il pend]. exact H.
Qed.

(** ** C9: recognition by prefix *)

(** C9. Import lines are recognised by their first characters alone: a line
    is taken when it starts with "import", or with "from" but not with
    "from __future__", and every such line of the file is added, stripped,
    to the statement list. The lines "importlib.reload(m)" and
    "fromage = 1" are taken in this way although they import nothing;
    module-name extraction raises [ValueError] on them, and [main] run on a
    file that contains one of them ends with an exception. *)
Theorem prefix_recognition_takes_non_imports :
  (forall line : string,
      import_start line = true <->
      (exists r, line = "import" +:+ r) \/
      ((exists r, line = "from" +:+ r) /\ ~ exists r, line = "from __future__" +:+ r)) /\
  (forall (contents line : string),
      In line (Str.readlines contents) -> import_start line = true ->
      In (Str.strip line) (snd (import_lines_of contents))) /\
  (forall line : string,
      In line ["importlib.reload(m)"; "fromage = 1"] ->
      import_start line = true /\
      import_lines_of (line +:+ Str.nl) = (line, [line]) /\
      get_module_name_from_import line =
      raise (ValueError ("Couldn't get module name from '" +:+ line +:+ "'.")) /\
      (forall py_import override,
          construct_import_dict py_import [line] override =
          raise (ValueError ("Couldn't get module name from '" +:+ line +:+ "'."))) /\
      (forall py_import read_file unified_diff (args : clargs) (f contents : string),
          In f (cl_files args) -> read_file f = Some contents ->
          In (line +:+ Str.nl) (Str.readlines contents) ->
          exists e, result (main py_import read_file unified_diff args) = Raise e)).
Proof.
  assert (Hstmt : forall contents line,
             In line (Str.readlines contents) -> import_start line = true ->
             In (Str.strip line) (snd (import_lines_of contents))).
  { intros contents line Hin Hl. unfold import_lines_of.
    rewrite scan_lines_statements. apply in_map, filter_In. auto. }
  split; [|split; [exact Hstmt|]].
  - intros line. rewrite import_start_cases, !prefix_iff.
    rewrite <- not_true_iff_false, prefix_iff. reflexivity.
  - intros line Hin.
    assert (Hl : import_start line = true /\ import_regex line = None /\
                 Str.strip (line +:+ Str.nl) = line /\
                 import_lines_of (line +:+ Str.nl) = (line, [line])).
    { destruct Hin as [<-|[<-|[]]]; repeat split; vm_compute; reflexivity. }
    destruct Hl as (Hl & Hre & Hstrip & Hlines).
    split; [exact Hl|]. split; [exact Hlines|].
    split; [unfold get_module_name_from_import; rewrite Hre; reflexivity|].
    split.
    + intros py_import override. unfold construct_import_dict. simpl.
      rewrite group_line_unparseable by exact Hre. reflexivity.
    + intros py_import read_file unified_diff args f contents Hf Hr Hc.
      apply (main_aborts _ _ _ _ f Hf); [|rewrite Hr; eauto].
      apply (check_file_unparseable _ _ _ _ _ contents line Hr); [|exact Hre].
      rewrite <- Hstrip. apply Hstmt; [exact Hc|].
      apply import_start_cases. apply import_start_cases in Hl.
      destruct Hl as [H|[H1 H2]]; [left; apply prefix_app_r; exact H|].
      right. split; [apply prefix_app_r; exact H1|].
      destruct Hin as [<-|[<-|[]]]; vm_compute; reflexivity.
Qed.

Lemma prefix_recognition_takes_non_imports_witness :
  In ("fromage = 1" +:+ Str.nl) (Str.readlines Demo.unsorted_fromage) /\
  import_start ("fromage = 1" +:+ Str.nl) = true /\
  In "fromage = 1" (snd (import_lines_of Demo.unsorted_fromage)).
Proof.
  assert (H1 : In ("fromage = 1" +:+ Str.nl) (Str.readlines Demo.unsorted_fromage)).
  { vm_compute. tauto. }
  assert (H2 : import_start ("fromage = 1" +:+ Str.nl) = true) by reflexivity.
  split; [exact H1|]. split; [exact H2|].
  exact (proj1 (proj2 prefix_recognition_takes_non_imports)
           Demo.unsorted_fromage ("fromage = 1" +:+ Str.nl) H1 H2).
Defined.

(** ** The orderer *)

Lemma map_m_sort_key (l : list string) :
  map_m sort_key l =
  (match mapM key_of l with Some ks => Return ks | None => Raise IndexError end, []).
Proof.
  induction l as [|x r IH]; [reflexivity|]. simpl map_m. rewrite IH.
  unfold sort_key, key_of. simpl mapM.
  destruct (Str.words (Str.lower x)) as [|w0 [|w ws]]; try reflexivity.
  simpl. destruct (mapM _ r); reflexivity.
Qed.

(** Sorting prints nothing and imports nothing. *)
Lemma sorted_eq (l : list string) : sorted l = (result (sorted l), []).
Proof.
  unfold sorted. rewrite map_m_sort_key. destruct (mapM key_of l); reflexivity.
Qed.

Lemma sorted_result (l : list string) :
  result (sorted l) =
  match mapM key_of l with
  | Some ks => Return (map snd (stable_sort (combine ks l)))
  | None => Raise IndexError
  end.
Proof.
  unfold sorted. rewrite map_m_sort_key. destruct (mapM key_of l); reflexivity.
Qed.

Lemma order_key_returns g key l :
  result (sorted (items_of g key)) = Return l ->
  order_key g key = ret (<[key := VStr (Str.join Str.nl l)]> g).
Proof.
  unfold order_key, items_of. destruct (g !! key) as [v|].
  - intros H. rewrite sorted_eq, H. reflexivity.
  - intros [= <-]. reflexivity.
Qed.

Lemma order_key_raises g key e :
  result (sorted (items_of g key)) = Raise e -> order_key g key = raise e.
Proof.
  unfold order_key, items_of. destruct (g !! key) as [v|].
  - intros H. rewrite sorted_eq, H. reflexivity.
  - discriminate.
Qed.

Lemma items_of_insert_ne g k k' v :
  k <> k' -> items_of (<[k := v]> g) k' = items_of g k'.
Proof. intros H. unfold items_of. rewrite lookup_insert_ne by exact H. reflexivity. Qed.

Lemma get_ordered_imports_returns g l1 l2 l3 :
  result (sorted (items_of g "standard")) = Return l1 ->
  result (sorted (items_of g "third_party")) = Return l2 ->
  result (sorted (items_of g "local")) = Return l3 ->
  get_ordered_imports g = ret (ordered_text l1 l2 l3, ordered_dict g l1 l2 l3).
Proof.
  intros H1 H2 H3. unfold get_ordered_imports, CATEGORIES. simpl order_keys.
  rewrite (order_key_returns _ _ _ H1), bind_ret_l.
  rewrite (order_key_returns _ _ l2), bind_ret_l
    by (rewrite items_of_insert_ne by discriminate; exact H2).
  rewrite (order_key_returns _ _ l3), !bind_ret_l
    by (rewrite !items_of_insert_ne by discriminate; exact H3).
  simpl nonempty_blocks. unfold getitem_str.
  rewrite !lookup_insert_ne by discriminate. rewrite lookup_insert_eq.
  rewrite bind_ret_l.
  rewrite lookup_insert_ne by discriminate. rewrite lookup_insert_eq.
  rewrite bind_ret_l. rewrite lookup_insert_eq. rewrite !bind_ret_l.
  unfold ordered_text, ordered_dict. simpl List.filter.
  destruct (String.eqb (Str.join Str.nl l1) ""),
    (String.eqb (Str.join Str.nl l2) ""),
    (String.eqb (Str.join Str.nl l3) ""); reflexivity.
Qed.

Lemma get_ordered_imports_inv g out g' :
  result (get_ordered_imports g) = Return (out, g') ->
  exists l1 l2 l3,
    result (sorted (items_of g "standard")) = Return l1 /\
    result (sorted (items_of g "third_party")) = Return l2 /\
    result (sorted (items_of g "local")) = Return l3 /\
    out = ordered_text l1 l2 l3 /\ g' = ordered_dict g l1 l2 l3.
Proof.
  intros H.
  destruct (result (sorted (items_of g "standard"))) as [l1|e] eqn:H1.
  2:{ unfold get_ordered_imports, CATEGORIES in H. simpl order_keys in H.
      rewrite (order_key_raises _ _ _ H1) in H. discriminate. }
  destruct (result (sorted (items_of g "third_party"))) as [l2|e] eqn:H2.
  2:{ unfold get_ordered_imports, CATEGORIES in H. simpl order_keys in H.
      rewrite (order_key_returns _ _ _ H1), bind_ret_l in H.
      rewrite (order_key_raises _ _ e) in H
        by (rewrite items_of_insert_ne by discriminate; exact H2).
      discriminate. }
  destruct (result (sorted (items_of g "local"))) as [l3|e] eqn:H3.
  2:{ unfold get_ordered_imports, CATEGORIES in H. simpl order_keys in H.
      rewrite (order_key_returns _ _ _ H1), bind_ret_l in H.
      rewrite (order_key_returns _ _ l2), bind_ret_l in H
        by (rewrite items_of_insert_ne by discriminate; exact H2).
      rewrite (order_key_raises _ _ e) in H
        by (rewrite !items_of_insert_ne by discriminate; exact H3).
      discriminate. }
  rewrite (get_ordered_imports_returns _ _ _ _ H1 H2 H3) in H.
  injection H as <- <-. exists l1, l2, l3. auto.
Qed.

(** ** C10: the orderer updates its argument *)

(** C10. When [get_ordered_imports] returns, the dictionary it was given
    has changed: each of the keys 'standard', 'third_party' and 'local' is
    bound to a string, the LF-joined sorted block of the items that were
    under the key, which is the empty string for a key that was absent; no
    list of statements is left under these keys, and the other keys are as
    they were. *)
Theorem ordered_imports_rebinds_keys :
  forall (grouped_imports g' : gmap string pyval) (out : string),
    result (get_ordered_imports grouped_imports) = Return (out, g') ->
    (forall key, In key CATEGORIES ->
       exists l,
         result (sorted (items_of grouped_imports key)) = Return l /\
         g' !! key = Some (VStr (Str.join Str.nl l))) /\
    (forall key, In key CATEGORIES -> grouped_imports !! key = None ->
       g' !! key = Some (VStr "")) /\
    (forall key l, In key CATEGORIES -> g' !! key <> Some (VList l)) /\
    (forall key, ~ In key CATEGORIES -> g' !! key = grouped_imports !! key).
Proof.
  intros g g' out H.
  destruct (get_ordered_imports_inv _ _ _ H)
    as (l1 & l2 & l3 & H1 & H2 & H3 & _ & ->).
  assert (Hkeys : forall key, In key CATEGORIES ->
            exists l, result (sorted (items_of g key)) = Return l /\
                      ordered_dict g l1 l2 l3 !! key = Some (VStr (Str.join Str.nl l))).
  { intros key [<-|[<-|[<-|[]]]]; unfold ordered_dict.
    - exists l1. split; [exact H1|].
      rewrite !lookup_insert_ne by discriminate. apply lookup_insert_eq.
    - exists l2. split; [exact H2|].
      rewrite lookup_insert_ne by discriminate. apply lookup_insert_eq.
    - exists l3. split; [exact H3|]. apply lookup_insert_eq. }
  split; [exact Hkeys|]. split; [|split].
  - intros key Hin Hnone. destruct (Hkeys key Hin) as (l & Hl & ->).
    unfold items_of in Hl. rewrite Hnone in Hl. injection Hl as <-. reflexivity.
  - intros key l Hin. destruct (Hkeys key Hin) as (l' & _ & ->). discriminate.
  - intros key Hnot. unfold ordered_dict.
    rewrite !lookup_insert_ne; [reflexivity| | |];
      intros <-; apply Hnot; simpl; tauto.
Qed.

Lemma ordered_imports_rebinds_keys_witness :
  exists g' out,
    result (get_ordered_imports
              {["standard" := VList ["import sys"; "import os"]]}) = Return (out, g') /\
    g' !! "standard" = Some (VStr ("import os" +:+ Str.nl +:+ "import sys")) /\
    g' !! "local" = Some (VStr "").
Proof.
  eexists _, _.
  assert (H : result (get_ordered_imports
                        {["standard" := VList ["import sys"; "import os"]]}) =
              Return (ordered_text ["import os"; "import sys"] [] [],
                      ordered_dict {["standard" := VList ["import sys"; "import os"]]}
                        ["import os"; "import sys"] [] [])).
  { rewrite (get_ordered_imports_returns _ ["import os"; "import sys"] [] []);
      reflexivity. }
  split; [exact H|].
  destruct (ordered_imports_rebinds_keys _ _ _ H) as (Hk & Hn & _).
  split.
  - destruct (Hk "standard") as (l & Hl & ->); [simpl; tauto|].
    vm_compute in Hl. injection Hl as <-. reflexivity.
  - apply Hn; [simpl; tauto | reflexivity].
Defined.

(** ** C4: what the extractor keeps *)

(** C4 does not hold as stated: the extractor does not stop at the end of
    the first import block. In
    the file "import os", "", "x = 1", "", "import sys" the import that
    follows the assignment is returned, and with it the blank lines on both
    sides of the assignment; the result is not that of the leading block
    "import os" alone. *)
Lemma extractor_keeps_lines_after_other_content :
  import_lines_of Demo.gap_py =
  (Str.join Str.nl ["import os"; ""; ""; "import sys"], ["import os"; "import sys"]) /\
  import_lines_of (text_of_lines ["import os"]) = ("import os", ["import os"]) /\
  import_lines_of Demo.gap_py <> import_lines_of (text_of_lines ["import os"]).
Proof. repeat split; vm_compute; [reflexivity .. | discriminate]. Qed.

Lemma scan_fold_invariant (lines : list string) :
  forall il pend,
    (il = [] -> pend = []) ->
    head il <> Some "" -> last il <> Some "" ->
    let il' := fst (fold_left scan_line lines (il, pend)) in
    head il' <> Some "" /\ last il' <> Some "".
Proof.
  induction lines as [|l r IH]; intros il pend Hp Hh Hl; simpl; [auto|].
  destruct (import_start l) eqn:E.
  - apply IH.
    + intros H. apply app_eq_nil in H as [_ H]. discriminate.
    + destruct il as [|x il]; [|exact Hh].
      rewrite (Hp eq_refl). simpl. intros [= H].
      exact (strip_import_start l E H).
    + rewrite last_snoc. intros [= H]. exact (strip_import_start l E H).
  - destruct (String.eqb l Str.nl && truthy il) eqn:B.
    + apply IH; [|exact Hh|exact Hl].
      intros ->. rewrite andb_false_r in B. discriminate.
    + apply IH; assumption.
Qed.

Lemma scan_line_skip (st : list string * list string) (line : string) :
  import_start line = false -> line <> Str.nl -> scan_line st line = st.
Proof.
  intros H1 H2. destruct st as [il pend]. unfold scan_line. rewrite H1.
  destruct (String.eqb_spec line Str.nl); [contradiction|reflexivity].
Qed.

(** C4, as the code has it. The statement list holds every line that
    starts with "import", or with "from" but not "from __future__", stripped
    and in file order, contiguous or not. The reconstructed block is a list
    of these statements and empty entries that neither begins nor ends with
    an empty entry: blank lines before the first import and after the last
    one do not appear. A line that is neither an import line nor blank is
    skipped and does not end the block: the result is the same as without
    it. *)
Theorem extractor_collects_import_lines :
  (forall lines : list string,
      snd (scan_lines lines) = map Str.strip (List.filter import_start lines)) /\
  (forall lines : list string,
      exists import_list : list string,
        scan_lines lines =
        (Str.join Str.nl import_list,
         List.filter (fun i => negb (String.eqb i "")) import_list) /\
        head import_list <> Some "" /\ last import_list <> Some "") /\
  (forall (before after : list string) (line : string),
      import_start line = false -> line <> Str.nl ->
      scan_lines (before ++ line :: after) = scan_lines (before ++ after)) /\
  (forall contents : string,
      import_lines_of contents = scan_lines (Str.readlines contents)).
Proof.
  split; [exact scan_lines_statements|]. split; [|split; [|reflexivity]].
  - intros lines. unfold scan_lines.
    pose proof (scan_fold_invariant lines [] []) as H. simpl in H.
    destruct (fold_left scan_line lines ([], [])) as [il pend].
    exists il. split; [reflexivity|]. apply H; [reflexivity|discriminate..].
  - intros before after line H1 H2. unfold scan_lines.
    rewrite !fold_left_app. simpl.
    rewrite (scan_line_skip _ line H1 H2). reflexivity.
Qed.

Lemma extractor_collects_import_lines_witness :
  import_start ("x = 1" +:+ Str.nl) = false /\
  "x = 1" +:+ Str.nl <> Str.nl /\
  scan_lines (["import os" +:+ Str.nl] ++
              ("x = 1" +:+ Str.nl) :: ["import sys" +:+ Str.nl]) =
  scan_lines (["import os" +:+ Str.nl] ++ ["import sys" +:+ Str.nl]).
Proof.
  assert (H1 : import_start ("x = 1" +:+ Str.nl) = false) by reflexivity.
  assert (H2 : "x = 1" +:+ Str.nl <> Str.nl) by discriminate.
  split; [exact H1|]. split; [exact H2|].
  exact (proj1 (proj2 (proj2 extractor_collects_import_lines))
           ["import os" +:+ Str.nl] ["import sys" +:+ Str.nl]
           ("x = 1" +:+ Str.nl) H1 H2).
Defined.

(** ** Sorting *)

Lemma lt_asym (a b : string) : Str.lt a b = true -> Str.lt b a = false.
Proof.
  unfold Str.lt, String.ltb. rewrite (String.compare_antisym b a).
  destruct (String.compare a b); simpl; congruence.
Qed.

Lemma insert_by_key_perm x l : insert_by_key x l ≡ₚ x :: l.
Proof.
  induction l as [|y r IH]; simpl; [reflexivity|].
  destruct (Str.lt (fst y) (fst x)); [|reflexivity].
  rewrite IH. apply Permutation_swap.
Qed.

Lemma stable_sort_perm l : stable_sort l ≡ₚ l.
Proof.
  induction l as [|x r IH]; simpl; [reflexivity|].
  rewrite insert_by_key_perm, IH. reflexivity.
Qed.

Lemma insert_by_key_sorted x l : key_sorted l -> key_sorted (insert_by_key x l).
Proof.
  induction l as [|y r IH]; intros Hs; simpl; [auto|].
  destruct (Str.lt (fst y) (fst x)) eqn:E.
  - destruct Hs as [Hy Hr]. specialize (IH Hr). split; [|exact IH].
    destruct r as [|z r]; simpl.
    + apply lt_asym. exact E.
    + destruct (Str.lt (fst z) (fst x)); [exact Hy|apply lt_asym; exact E].
  - split; [exact E|exact Hs].
Qed.

Lemma stable_sort_sorted l : key_sorted (stable_sort l).
Proof.
  induction l as [|x r IH]; simpl; [exact I|].
  apply insert_by_key_sorted. exact IH.
Qed.

Lemma lt_irrefl (a : string) : Str.lt a a = false.
Proof.
  destruct (Str.lt a a) eqn:E; [|reflexivity].
  rewrite (lt_asym _ _ E) in E. discriminate.
Qed.

(** The sort is stable: the items with a given key come out in the order
    they came in. Together with [stable_sort_perm] and [stable_sort_sorted]
    this determines the result, as it does for Python's [sorted]. *)
Lemma stable_sort_stable (k : string) (l : list (string * string)) :
  List.filter (fun p => String.eqb (fst p) k) (stable_sort l) =
  List.filter (fun p => String.eqb (fst p) k) l.
Proof.
  induction l as [|x r IH]; [reflexivity|].
  simpl. rewrite <- IH. clear IH. generalize (stable_sort r). intros l.
  induction l as [|y l IH]; [reflexivity|]. simpl.
  destruct (Str.lt (fst y) (fst x)) eqn:E; [|reflexivity].
  simpl. rewrite IH.
  destruct (String.eqb_spec (fst y) k) as [Hy|Hy];
    destruct (String.eqb_spec (fst x) k) as [Hx|Hx]; try reflexivity.
  rewrite Hy, Hx, lt_irrefl in E. discriminate.
Qed.

(** A sorted list is left as it is. *)
Lemma stable_sort_id l : key_sorted l -> stable_sort l = l.
Proof.
  induction l as [|x r IH]; intros Hs; [reflexivity|].
  destruct Hs as [Hx Hr]. simpl. rewrite (IH Hr).
  destruct r as [|y r]; [reflexivity|]. simpl. rewrite Hx. reflexivity.
Qed.

Lemma combine_decorated (l : list string) (ks : list string) :
  mapM key_of l = Some ks ->
  Forall (fun p => key_of (snd p) = Some (fst p)) (combine ks l) /\
  map snd (combine ks l) = l.
Proof.
  intros H. apply mapM_Some in H.
  induction H as [|s k l ks Hk _ [IH1 IH2]]; simpl; [split; [constructor|reflexivity]|].
  split; [constructor; [exact Hk|exact IH1]|]. rewrite IH2. reflexivity.
Qed.

Lemma mapM_key_of_decorated (Y : list (string * string)) :
  Forall (fun p => key_of (snd p) = Some (fst p)) Y ->
  mapM key_of (map snd Y) = Some (map fst Y) /\
  combine (map fst Y) (map snd Y) = Y.
Proof.
  induction 1 as [|[k s] Y Hk _ [IH1 IH2]]; [split; reflexivity|].
  simpl in *. rewrite Hk. simpl. rewrite IH1, IH2. split; reflexivity.
Qed.

(** What [sorted] returns is a rearrangement of its argument, and sorting
    it again changes nothing. *)
Lemma sorted_perm (l l' : list string) :
  result (sorted l) = Return l' -> l' ≡ₚ l.
Proof.
  rewrite sorted_result. destruct (mapM key_of l) as [ks|] eqn:E; [|discriminate].
  intros [= <-]. destruct (combine_decorated l ks E) as [_ Hl].
  rewrite <- Hl at 2. apply Permutation_map, stable_sort_perm.
Qed.

Lemma sorted_idem (l l' : list string) :
  result (sorted l) = Return l' -> result (sorted l') = Return l'.
Proof.
  rewrite sorted_result. destruct (mapM key_of l) as [ks|] eqn:E; [|discriminate].
  intros [= <-]. destruct (combine_decorated l ks E) as [Hd _].
  assert (HY : Forall (fun p => key_of (snd p) = Some (fst p))
                 (stable_sort (combine ks l))).
  { rewrite stable_sort_perm. exact Hd. }
  destruct (mapM_key_of_decorated _ HY) as [H1 H2].
  rewrite sorted_result, H1, H2.
  rewrite (stable_sort_id _ (stable_sort_sorted _)). reflexivity.
Qed.

Lemma sorted_returns (l : list string) :
  Forall (fun s => is_Some (key_of s)) l -> exists l', result (sorted l) = Return l'.
Proof.
  intros H. rewrite sorted_result.
  assert (is_Some (mapM key_of l)) as [ks ->]; [|eauto].
  apply mapM_is_Some. exact H.
Qed.

Lemma sorted_inv_keys (l l' : list string) :
  result (sorted l) = Return l' -> Forall (fun s => is_Some (key_of s)) l.
Proof.
  rewrite sorted_result. destruct (mapM key_of l) as [ks|] eqn:E; [|discriminate].
  intros _. apply mapM_is_Some. eauto.
Qed.

(** ** Lines and layout *)

Lemma join_cons (sep x : string) (r : list string) :
  r <> [] -> Str.join sep (x :: r) = x +:+ sep +:+ Str.join sep r.
Proof. destruct r; [congruence|reflexivity]. Qed.

Lemma join_app (sep : string) (a b : list string) :
  a <> [] -> b <> [] ->
  Str.join sep (a ++ b) = Str.join sep a +:+ sep +:+ Str.join sep b.
Proof.
  intros Ha Hb. induction a as [|x a IH]; [congruence|].
  destruct a as [|y a].
  - simpl app. rewrite join_cons by exact Hb. reflexivity.
  - change ((x :: y :: a) ++ b) with (x :: (y :: a) ++ b).
    rewrite join_cons by discriminate. rewrite IH by discriminate.
    rewrite (join_cons sep x (y :: a)) by discriminate.
    rewrite !sapp_assoc. reflexivity.
Qed.

Lemma join_nonblank (sep : string) (l : list string) :
  Forall (fun s => s <> "") l -> l <> [] -> Str.join sep l <> "".
Proof.
  intros Hl Hne. destruct l as [|x r]; [congruence|].
  apply Forall_cons in Hl as [Hx _]. destruct r as [|y r]; [exact Hx|].
  rewrite join_cons by discriminate. intros [H _]%sapp_eq_nil. contradiction.
Qed.

Lemma join_head_nonblank (sep : string) (l : list string) :
  head l <> Some "" -> l <> [] -> Str.join sep l <> "".
Proof.
  intros Hh Hne. destruct l as [|x r]; [congruence|].
  assert (Hx : x <> "") by (simpl in Hh; congruence).
  destruct r as [|y r]; [exact Hx|].
  rewrite join_cons by discriminate. intros [H _]%sapp_eq_nil. contradiction.
Qed.

Lemma join_blank_iff (l : list string) :
  Forall (fun s => s <> "") l ->
  String.eqb (Str.join Str.nl l) "" = negb (truthy l).
Proof.
  intros Hl. destruct l as [|x r]; [reflexivity|].
  apply String.eqb_neq. apply join_nonblank; [exact Hl|discriminate].
Qed.

Lemma with_blanks_cons (g : list string) (r : list (list string)) :
  r <> [] -> with_blanks (g :: r) = g ++ "" :: with_blanks r.
Proof. destruct r; [congruence|reflexivity]. Qed.

Lemma with_blanks_nonempty (groups : list (list string)) :
  Forall (fun g => g <> []) groups -> groups <> [] -> with_blanks groups <> [].
Proof.
  intros Hg Hne. destruct groups as [|g r]; [congruence|].
  apply Forall_cons in Hg as [Hg _]. destruct r as [|g2 r]; [exact Hg|].
  rewrite with_blanks_cons by discriminate.
  intros [H _]%app_eq_nil. contradiction.
Qed.

(** Joining the blocks with an empty line is joining all their lines and
    the empty lines between them. *)
Lemma join_groups (groups : list (list string)) :
  Forall (fun g => g <> []) groups ->
  Str.join (Str.nl +:+ Str.nl) (map (Str.join Str.nl) groups) =
  Str.join Str.nl (with_blanks groups).
Proof.
  induction 1 as [|g r Hg Hr IH]; [reflexivity|].
  destruct r as [|g2 r]; [reflexivity|].
  rewrite with_blanks_cons by discriminate.
  change (map (Str.join Str.nl) (g :: g2 :: r))
    with (Str.join Str.nl g :: map (Str.join Str.nl) (g2 :: r)).
  rewrite join_cons by discriminate. rewrite IH.
  rewrite join_app; [|exact Hg|discriminate].
  rewrite join_cons by (apply with_blanks_nonempty; [exact Hr|discriminate]).
  rewrite sapp_nil_l, sapp_assoc. reflexivity.
Qed.

Lemma with_blanks_filter (groups : list (list string)) :
  Forall (Forall (fun s => s <> "")) groups ->
  List.filter (fun i => negb (String.eqb i "")) (with_blanks groups) =
  concat groups.
Proof.
  assert (Hf : forall g : list string, Forall (fun s => s <> "") g ->
             List.filter (fun i => negb (String.eqb i "")) g = g).
  { induction 1 as [|x g Hx _ IH]; [reflexivity|]. simpl.
    apply String.eqb_neq in Hx. rewrite Hx. simpl. rewrite IH. reflexivity. }
  induction 1 as [|g r Hg Hr IH]; [reflexivity|].
  destruct r as [|g2 r].
  - simpl. rewrite List.app_nil_r. apply Hf. exact Hg.
  - rewrite with_blanks_cons by discriminate.
    rewrite List.filter_app, (Hf g Hg).
    change (List.filter (fun i => negb (String.eqb i "")) ("" :: with_blanks (g2 :: r)))
      with (List.filter (fun i => negb (String.eqb i "")) (with_blanks (g2 :: r))).
    rewrite IH. reflexivity.
Qed.

Lemma with_blanks_ends (groups : list (list string)) :
  Forall (fun g => g <> [] /\ Forall (fun s => s <> "") g) groups ->
  head (with_blanks groups) <> Some "" /\
  last (with_blanks groups) <> Some "" /\
  no_blank_run (with_blanks groups) = true.
Proof.
  assert (Hg : forall g : list string, g <> [] -> Forall (fun s => s <> "") g ->
             head g <> Some "" /\ last g <> Some "" /\ no_blank_run g = true).
  { intros g Hne Hall. induction Hall as [|x g Hx Hall IH]; [congruence|].
    destruct g as [|y g].
    - simpl. repeat split; congruence.
    - destruct IH as (_ & IH2 & IH3); [discriminate|].
      split; [simpl; congruence|]. split; [exact IH2|].
      change (no_blank_run (x :: y :: g))
        with (negb (String.eqb x "" && String.eqb y "") && no_blank_run (y :: g)).
      rewrite IH3. apply String.eqb_neq in Hx. rewrite Hx. reflexivity. }
  assert (Happ : forall (g w : list string),
             g <> [] -> Forall (fun s => s <> "") g ->
             w <> [] -> head w <> Some "" -> last w <> Some "" ->
             no_blank_run w = true ->
             head (g ++ "" :: w) <> Some "" /\ last (g ++ "" :: w) <> Some "" /\
             no_blank_run (g ++ "" :: w) = true).
  { intros g w Hne Hall Hw Hh Hl Hn. split; [|split].
    - destruct g as [|x g]; [congruence|]. apply Forall_cons in Hall as [Hx _].
      simpl. congruence.
    - rewrite last_app. destruct w as [|y w]; [congruence|].
      change (last ("" :: y :: w)) with (last (y :: w)).
      destruct (last (y :: w)) eqn:E; [exact Hl|].
      apply last_None in E. discriminate.
    - induction Hall as [|x g Hx Hall IH]; [congruence|].
      apply String.eqb_neq in Hx.
      destruct g as [|x' g].
      + simpl app. destruct w as [|y w]; [congruence|].
        change (no_blank_run (x :: "" :: y :: w))
          with (negb (String.eqb x "" && String.eqb "" "") &&
                (negb (String.eqb "" "" && String.eqb y "") && no_blank_run (y :: w))).
        rewrite Hx, Hn. simpl.
        destruct (String.eqb_spec y "") as [->|]; [|reflexivity].
        simpl in Hh. congruence.
      + change (no_blank_run ((x :: x' :: g) ++ "" :: w))
          with (negb (String.eqb x "" && String.eqb x' "") &&
                no_blank_run ((x' :: g) ++ "" :: w)).
        rewrite Hx, IH by discriminate. reflexivity. }
  induction 1 as [|g r [Hne Hall] Hr IH].
  - simpl. repeat split; congruence.
  - destruct r as [|g2 r]; [apply Hg; assumption|].
    rewrite with_blanks_cons by discriminate.
    destruct IH as (IH1 & IH2 & IH3).
    apply Happ; try assumption.
    apply with_blanks_nonempty; [|discriminate].
    eapply Forall_impl; [exact Hr|]. intros ? [? _]. assumption.
Qed.

Lemma split_single_line (x : string) :
  single_line x = true -> Str.split Str.LF x = [x].
Proof.
  induction x as [|c x IH]; [reflexivity|]. unfold single_line. simpl.
  intros [Hc Hx]%andb_true_iff. apply negb_true_iff in Hc. rewrite Hc.
  rewrite (IH Hx). reflexivity.
Qed.

Lemma split_app_nl (x rest : string) :
  single_line x = true ->
  Str.split Str.LF (x +:+ Str.nl +:+ rest) = x :: Str.split Str.LF rest.
Proof.
  induction x as [|c x IH].
  - intros _. reflexivity.
  - unfold single_line. simpl. intros [Hc Hx]%andb_true_iff.
    apply negb_true_iff in Hc. rewrite Hc, (IH Hx). reflexivity.
Qed.

(** Splitting the joined lines gives the lines back. *)
Lemma split_join (l : list string) :
  l <> [] -> Forall (fun s => single_line s = true) l ->
  Str.split Str.LF (Str.join Str.nl l) = l.
Proof.
  intros Hne Hl. induction Hl as [|x r Hx Hr IH]; [congruence|].
  destruct r as [|y r]; [apply split_single_line; exact Hx|].
  rewrite join_cons by discriminate. rewrite split_app_nl by exact Hx.
  rewrite IH by discriminate. reflexivity.
Qed.

Lemma with_blanks_single_line (groups : list (list string)) :
  Forall (Forall (fun s => single_line s = true)) groups ->
  Forall (fun s => single_line s = true) (with_blanks groups).
Proof.
  induction 1 as [|g r Hg Hr IH]; [constructor|].
  destruct r as [|g2 r]; [exact Hg|].
  rewrite with_blanks_cons by discriminate.
  apply Forall_app. split; [exact Hg|]. constructor; [reflexivity|exact IH].
Qed.

Lemma filter_truthy (P : list string -> Prop) (L : list (list string)) :
  Forall P L -> Forall (fun g => g <> [] /\ P g) (List.filter truthy L).
Proof.
  induction 1 as [|g L Hg _ IH]; [constructor|].
  simpl. destruct g; [exact IH|]. constructor; [split; [discriminate|exact Hg]|exact IH].
Qed.

Lemma ordered_text_groups (l1 l2 l3 : list string) :
  Forall (fun s => s <> "") l1 -> Forall (fun s => s <> "") l2 ->
  Forall (fun s => s <> "") l3 ->
  ordered_text l1 l2 l3 =
  Str.join (Str.nl +:+ Str.nl)
    (map (Str.join Str.nl) (List.filter truthy [l1; l2; l3])) /\
  ordered_text l1 l2 l3 =
  Str.join Str.nl (with_blanks (List.filter truthy [l1; l2; l3])).
Proof.
  intros H1 H2 H3.
  assert (E : ordered_text l1 l2 l3 =
              Str.join (Str.nl +:+ Str.nl)
                (map (Str.join Str.nl) (List.filter truthy [l1; l2; l3]))).
  { unfold ordered_text. f_equal. cbn [List.filter map].
    rewrite !join_blank_iff by assumption.
    destruct l1, l2, l3; reflexivity. }
  split; [exact E|]. rewrite E. apply join_groups.
  eapply Forall_impl; [apply (filter_truthy (fun _ => True)); repeat constructor|].
  intros g [Hg _]. exact Hg.
Qed.

Lemma statement_line_inv (s : string) :
  statement_line s = true -> single_line s = true /\ is_Some (key_of s) /\ s <> "".
Proof.
  unfold statement_line. intros [H1 H2]%andb_true_iff.
  apply bool_decide_eq_true in H2. repeat split; try assumption.
  intros ->. destruct H2 as [k Hk]. discriminate.
Qed.

Lemma items_of_fmap (d : gmap string (list string)) (key : string) :
  items_of (VList <$> d) key = default [] (d !! key).
Proof. unfold items_of. rewrite lookup_fmap. destruct (d !! key); reflexivity. Qed.

(** ** C5: the layout of the ordered text *)

(** The ordered text of well-formed statements, line by line. *)
Lemma ordered_imports_lines :
  forall grouped : gmap string (list string),
    (forall key l s,
        In key CATEGORIES -> grouped !! key = Some l -> In s l ->
        statement_line s = true) ->
    exists (l1 l2 l3 : list string) (g' : gmap string pyval) (out : string),
      get_ordered_imports (VList <$> grouped) = ret (out, g') /\
      result (sorted (default [] (grouped !! "standard"))) = Return l1 /\
      result (sorted (default [] (grouped !! "third_party"))) = Return l2 /\
      result (sorted (default [] (grouped !! "local"))) = Return l3 /\
      out = Str.join (Str.nl +:+ Str.nl)
              (map (Str.join Str.nl) (List.filter truthy [l1; l2; l3])) /\
      (out = "" <-> List.filter truthy [l1; l2; l3] = []) /\
      (out <> "" ->
       Str.split Str.LF out = with_blanks (List.filter truthy [l1; l2; l3]) /\
       head (Str.split Str.LF out) <> Some "" /\
       last (Str.split Str.LF out) <> Some "") /\
      no_blank_run (Str.split Str.LF out) = true.
Proof.
  intros d Hd.
  assert (Hk : forall key, In key CATEGORIES ->
            exists l, result (sorted (default [] (d !! key))) = Return l /\
                      Forall (fun s => single_line s = true) l /\
                      Forall (fun s => s <> "") l).
  { intros key Hkey.
    assert (Hall : Forall (fun s => statement_line s = true) (default [] (d !! key))).
    { destruct (d !! key) as [l|] eqn:E; [|constructor].
      apply List.Forall_forall. intros s Hs. exact (Hd key l s Hkey E Hs). }
    destruct (sorted_returns (default [] (d !! key))) as [l Hl].
    { eapply Forall_impl; [exact Hall|]. intros s Hs.
      apply statement_line_inv in Hs. tauto. }
    exists l. split; [exact Hl|]. apply sorted_perm in Hl. rewrite Hl.
    split; (eapply Forall_impl; [exact Hall|]); intros s Hs;
      apply statement_line_inv in Hs; tauto. }
  destruct (Hk "standard") as (l1 & S1 & L1 & N1); [simpl; tauto|].
  destruct (Hk "third_party") as (l2 & S2 & L2 & N2); [simpl; tauto|].
  destruct (Hk "local") as (l3 & S3 & L3 & N3); [simpl; tauto|].
  destruct (ordered_text_groups l1 l2 l3 N1 N2 N3) as [E1 E2].
  set (groups := List.filter truthy [l1; l2; l3]) in *.
  assert (G1 : Forall (fun g => g <> [] /\ Forall (fun s => s <> "") g) groups).
  { apply filter_truthy. repeat constructor; assumption. }
  assert (G2 : Forall (Forall (fun s => single_line s = true)) groups).
  { eapply Forall_impl;
      [apply (filter_truthy (Forall (fun s => single_line s = true)));
       repeat constructor; assumption|].
    intros g [_ Hg]. exact Hg. }
  assert (G3 : Forall (fun g : list string => g <> []) groups).
  { eapply Forall_impl; [exact G1|]. intros g [Hg _]. exact Hg. }
  exists l1, l2, l3, (ordered_dict (VList <$> d) l1 l2 l3), (ordered_text l1 l2 l3).
  split.
  { apply get_ordered_imports_returns; rewrite items_of_fmap; assumption. }
  split; [exact S1|]. split; [exact S2|]. split; [exact S3|]. split; [exact E1|].
  destruct (with_blanks_ends groups G1) as (W1 & W2 & W3).
  assert (Hsplit : groups <> [] ->
            Str.split Str.LF (ordered_text l1 l2 l3) = with_blanks groups).
  { intros Hne. rewrite E2. apply split_join.
    - apply with_blanks_nonempty; assumption.
    - apply with_blanks_single_line. exact G2. }
  assert (Hempty : ordered_text l1 l2 l3 = "" <-> groups = []).
  { split.
    - intros H. destruct groups as [|g r] eqn:Eg; [reflexivity|]. exfalso.
      rewrite E2 in H. revert H. apply join_head_nonblank; [exact W1|].
      apply with_blanks_nonempty; [exact G3|discriminate].
    - intros H. rewrite E2, H. reflexivity. }
  split; [exact Hempty|]. split.
  - intros Hout.
    assert (Hne : groups <> []) by (intros H; apply Hout, Hempty, H).
    rewrite (Hsplit Hne). auto.
  - destruct groups as [|g r] eqn:Eg.
    + rewrite (proj2 Hempty eq_refl). reflexivity.
    + rewrite Hsplit by discriminate. exact W3.
Qed.

(** ** Stripping and reading lines *)

Lemma rstrip_app_space (s : string) (c : ascii) :
  Str.isspace c = true -> Str.rstrip (s +:+ String c "") = Str.rstrip s.
Proof.
  intros Hc. induction s as [|a s IH]; simpl; [rewrite Hc; reflexivity|].
  rewrite IH. reflexivity.
Qed.

Lemma rstrip_idem (s : string) : Str.rstrip (Str.rstrip s) = Str.rstrip s.
Proof.
  induction s as [|c s IH]; [reflexivity|]. simpl.
  destruct (Str.rstrip s) as [|b r] eqn:E.
  - destruct (Str.isspace c) eqn:Hc; [reflexivity|]. simpl. rewrite Hc. reflexivity.
  - simpl. simpl in IH. rewrite IH. reflexivity.
Qed.

Lemma rstrip_prefix_of (s : string) : exists w, s = Str.rstrip s +:+ w.
Proof.
  induction s as [|c s [w IH]]; [exists ""; reflexivity|]. simpl.
  destruct (Str.rstrip s) as [|b r] eqn:E.
  - destruct (Str.isspace c); [exists (String c s); reflexivity|].
    exists w. rewrite IH at 1. reflexivity.
  - exists w. rewrite IH at 1. reflexivity.
Qed.

Lemma prefix_rstrip (p s : string) :
  str_forall (fun c => negb (Str.isspace c)) p = true ->
  String.prefix p s = true -> String.prefix p (Str.rstrip s) = true.
Proof.
  revert s. induction p as [|a p IH]; intros s Hp H.
  - destruct (Str.rstrip s); reflexivity.
  - destruct s as [|b s]; [discriminate|]. simpl in H, Hp.
    apply andb_true_iff in Hp as [Ha Hp]. apply negb_true_iff in Ha.
    destruct (ascii_dec a b) as [<-|]; [|discriminate].
    specialize (IH s Hp H). simpl.
    destruct (Str.rstrip s) as [|c r] eqn:E.
    + rewrite Ha. simpl. destruct (ascii_dec a a); [|congruence].
      destruct p; [reflexivity|discriminate].
    + simpl. destruct (ascii_dec a a); [exact IH|congruence].
Qed.

Lemma single_line_app (a b : string) :
  single_line (a +:+ b) = single_line a && single_line b.
Proof.
  unfold single_line. induction a as [|c a IH]; [reflexivity|].
  simpl. rewrite IH, andb_assoc. reflexivity.
Qed.

Lemma single_line_rstrip (s : string) :
  single_line s = true -> single_line (Str.rstrip s) = true.
Proof.
  destruct (rstrip_prefix_of s) as [w Hw]. intros H. rewrite Hw in H.
  rewrite single_line_app in H. apply andb_true_iff in H. tauto.
Qed.

(** A line read from a file contains at most one LF, at its end. *)
Lemma readlines_shape (contents : string) :
  Forall (fun line => exists body,
              single_line body = true /\ (line = body +:+ Str.nl \/ line = body))
    (Str.readlines contents).
Proof.
  induction contents as [|c s IH]; [constructor|]. simpl.
  destruct (Ascii.eqb_spec c Str.LF) as [->|Hc].
  - constructor; [|exact IH]. exists "". split; [reflexivity|left; reflexivity].
  - assert (Hb : forall body, single_line body = true ->
                          single_line (String c body) = true).
    { intros body Hbody. unfold single_line in *. simpl. rewrite Hbody.
      apply Ascii.eqb_neq in Hc. rewrite Hc. reflexivity. }
    destruct (Str.readlines s) as [|l ls].
    + repeat constructor. exists (String c ""). split; [apply Hb; reflexivity|].
      right. reflexivity.
    + apply Forall_cons in IH as [(body & Hbody & Hl) Hls].
      constructor; [|exact Hls]. exists (String c body). split; [apply Hb, Hbody|].
      destruct Hl as [-> | ->]; [left|right]; reflexivity.
Qed.

Lemma strip_of_import_start (line : string) :
  import_start line = true -> Str.strip line = Str.rstrip line.
Proof.
  intros (c & r & -> & Hc)%import_start_head. unfold Str.strip. simpl Str.lstrip.
  rewrite Hc. reflexivity.
Qed.

Lemma import_start_rstrip (line : string) :
  import_start line = true -> import_start (Str.rstrip line) = true.
Proof.
  intros H. apply import_start_cases. apply import_start_cases in H.
  destruct H as [H|[H1 H2]].
  - left. apply prefix_rstrip; [reflexivity|exact H].
  - right. split; [apply prefix_rstrip; [reflexivity|exact H1]|].
    destruct (String.prefix "from __future__" (Str.rstrip line)) eqn:E;
      [|reflexivity].
    destruct (rstrip_prefix_of line) as [w Hw].
    rewrite Hw in H2. rewrite (prefix_app_r _ _ w E) in H2. discriminate.
Qed.

(** The statements found in a file are stripped single lines that still
    start like an import. *)
Lemma import_lines_extracted (contents : string) :
  Forall extracted (snd (import_lines_of contents)).
Proof.
  unfold import_lines_of. rewrite scan_lines_statements.
  apply List.Forall_forall. intros s Hs. apply in_map_iff in Hs as (line & <- & Hin).
  apply filter_In in Hin as [Hin Hstart].
  pose proof (readlines_shape contents) as Hshape.
  rewrite List.Forall_forall in Hshape.
  destruct (Hshape line Hin) as (body & Hbody & Hline).
  rewrite (strip_of_import_start line Hstart).
  assert (Hr : import_start (Str.rstrip line) = true)
    by (apply import_start_rstrip; exact Hstart).
  split; [exact Hr|]. split.
  - rewrite (strip_of_import_start _ Hr). apply rstrip_idem.
  - destruct Hline as [-> | ->].
    + unfold Str.nl. rewrite rstrip_app_space by reflexivity.
      apply single_line_rstrip. exact Hbody.
    + apply single_line_rstrip. exact Hbody.
Qed.

Lemma prefix_app_nl (p s : string) :
  single_line p = true -> p <> "" ->
  String.prefix p (s +:+ Str.nl) = String.prefix p s.
Proof.
  revert s. induction p as [|a p IH]; intros s Hp Hne; [congruence|].
  unfold single_line in Hp. simpl in Hp. apply andb_true_iff in Hp as [Ha Hp].
  apply negb_true_iff in Ha. destruct s as [|b s].
  - simpl. destruct (ascii_dec a Str.LF) as [->|]; [|reflexivity].
    rewrite Ascii.eqb_refl in Ha. discriminate.
  - simpl. destruct (ascii_dec a b); [|reflexivity].
    destruct p as [|a' p]; [destruct s; reflexivity|].
    apply IH; [exact Hp|discriminate].
Qed.

Lemma import_start_app_nl (s : string) :
  import_start (s +:+ Str.nl) = import_start s.
Proof.
  unfold import_start, Str.startswith.
  rewrite !prefix_app_nl by (reflexivity || discriminate). reflexivity.
Qed.

Lemma extracted_nonblank (s : string) : extracted s -> s <> "".
Proof. intros [H _] ->. discriminate. Qed.

Lemma extracted_strip_nl (s : string) : extracted s -> Str.strip (s +:+ Str.nl) = s.
Proof.
  intros (Hs & Hstrip & _).
  rewrite strip_of_import_start by (rewrite import_start_app_nl; exact Hs).
  unfold Str.nl. rewrite rstrip_app_space by reflexivity.
  rewrite <- strip_of_import_start by exact Hs. exact Hstrip.
Qed.

Lemma readlines_single_line (x : string) :
  single_line x = true -> x <> "" -> Str.readlines x = [x].
Proof.
  induction x as [|c x IH]; [congruence|]. unfold single_line. simpl.
  intros [Hc Hx]%andb_true_iff _. apply negb_true_iff in Hc. rewrite Hc.
  destruct x as [|b x]; [reflexivity|].
  rewrite IH; [reflexivity|exact Hx|discriminate].
Qed.

Lemma readlines_app_nl (x rest : string) :
  single_line x = true ->
  Str.readlines (x +:+ Str.nl +:+ rest) = (x +:+ Str.nl) :: Str.readlines rest.
Proof.
  induction x as [|c x IH]; [reflexivity|]. unfold single_line. simpl.
  intros [Hc Hx]%andb_true_iff. apply negb_true_iff in Hc. rewrite Hc.
  rewrite (IH Hx). reflexivity.
Qed.

(** Reading back the joined lines gives the lines, terminated. *)
Lemma readlines_join (l : list string) :
  Forall (fun s => single_line s = true) l -> last l <> Some "" ->
  Str.readlines (Str.join Str.nl l) = terminated l.
Proof.
  induction 1 as [|x r Hx Hr IH]; intros Hl; [reflexivity|].
  destruct r as [|y r].
  - simpl. apply readlines_single_line; [exact Hx|].
    simpl in Hl. congruence.
  - rewrite join_cons by discriminate. rewrite readlines_app_nl by exact Hx.
    rewrite IH by exact Hl. reflexivity.
Qed.

Lemma fold_left_cons {A B} (f : A -> B -> A) (x : B) (l : list B) (a : A) :
  fold_left f (x :: l) a = fold_left f l (f a x).
Proof. reflexivity. Qed.

Lemma scan_line_import (il pend : list string) (line : string) :
  import_start line = true ->
  scan_line (il, pend) line = ((il ++ pend) ++ [Str.strip line], []).
Proof. intros H. unfold scan_line. rewrite H. reflexivity. Qed.

Lemma scan_line_blank (il pend : list string) :
  truthy il = true -> scan_line (il, pend) Str.nl = (il, pend ++ [""]).
Proof. intros H. unfold scan_line. rewrite H. reflexivity. Qed.

(** Scanning the lines of a block of statements and empty lines that
    starts and ends with a statement rebuilds the block. *)
Lemma scan_terminated (l : list string) :
  Forall (fun s => s = "" \/ extracted s) l ->
  last l <> Some "" ->
  forall il pend,
    (il = [] -> head l <> Some "") ->
    l <> [] ->
    fold_left scan_line (terminated l) (il, pend) = (il ++ pend ++ l, []).
Proof.
  induction 1 as [|x r Hx Hr IH]; intros Hl il pend Hh Hne; [congruence|].
  destruct r as [|y r].
  - destruct Hx as [->|Hx]; [simpl in Hl; congruence|].
    simpl. destruct Hx as (Hs & Hstrip & _). rewrite Hs, Hstrip.
    rewrite <- List.app_assoc. reflexivity.
  - change (terminated (x :: y :: r)) with ((x +:+ Str.nl) :: terminated (y :: r)).
    rewrite fold_left_cons. destruct Hx as [->|Hx].
    + assert (Hil : truthy il = true).
      { destruct il; [|reflexivity]. exfalso. apply Hh; reflexivity. }
      rewrite sapp_nil_l, (scan_line_blank il pend Hil).
      rewrite IH; [|exact Hl| |discriminate].
      * rewrite <- (List.app_assoc pend). reflexivity.
      * intros ->. discriminate.
    + rewrite scan_line_import by (rewrite import_start_app_nl; exact (proj1 Hx)).
      rewrite (extracted_strip_nl x Hx).
      rewrite IH; [|exact Hl| |discriminate].
      * rewrite <- !List.app_assoc. reflexivity.
      * intros H. apply app_eq_nil in H as [_ H]. discriminate.
Qed.

(** ** The grouper *)

Section Grouping.

Variable py_import : string -> import_result.
Variable override : option overrides.


Lemma group_line_result d s :
  result (group_line py_import override d s) =
  match cat_of py_import override s with
  | Return k => Return (dict_append d k s)
  | Raise e => Raise e
  end.
Proof.
  unfold cat_of, group_line, category_of. rewrite !result_bind.
  destruct (result (get_module_name_from_import s)) as [m|e]; [|reflexivity].
  destruct (String.eqb m "."); [reflexivity|]. rewrite !result_bind.
  destruct (result (is_standard_module py_import m override)) as [[|]|e];
    try reflexivity.
  rewrite !result_bind.
  destruct (result (is_third_party_module py_import m override)) as [[|]|e];
    reflexivity.
Qed.

Lemma group_lines_result l :
  forall d, result (group_lines py_import override d l) = group_pure (cat_of py_import override) d l.
Proof.
  induction l as [|s r IH]; intros d; [reflexivity|]. simpl.
  rewrite result_bind, group_line_result.
  destruct (cat_of py_import override s) as [k|e]; [apply IH|reflexivity].
Qed.

End Grouping.

Section Buckets.

Variable cat : string -> outcome string.

Lemma group_pure_lookup l :
  forall d d', group_pure cat d l = Return d' ->
  forall key,
    d' !! key = match bucket cat key l with
                | [] => d !! key
                | b => Some (default [] (d !! key) ++ b)
                end.
Proof.
  induction l as [|s r IH]; intros d d' H key; simpl in H.
  - injection H as <-. reflexivity.
  - unfold bucket. simpl. destruct (cat s) as [k|e] eqn:E; [|discriminate].
    rewrite (IH _ _ H key). unfold dict_append. fold (bucket cat key r).
    destruct (String.eqb_spec k key) as [->|Hne].
    + rewrite lookup_insert_eq. simpl.
      destruct (bucket cat key r); [reflexivity|].
      rewrite <- List.app_assoc. reflexivity.
    + rewrite lookup_insert_ne by exact Hne. reflexivity.
Qed.

Lemma group_pure_returns l :
  Forall (fun s => exists k, cat s = Return k) l ->
  forall d, exists d', group_pure cat d l = Return d'.
Proof.
  induction 1 as [|s r [k Hk] _ IH]; intros d; simpl; [eauto|].
  rewrite Hk. apply IH.
Qed.

Lemma group_pure_bucket l d' key :
  group_pure cat ∅ l = Return d' -> default [] (d' !! key) = bucket cat key l.
Proof.
  intros H. rewrite (group_pure_lookup _ _ _ H key), lookup_empty.
  destruct (bucket cat key l); reflexivity.
Qed.

Lemma bucket_cat key l : Forall (fun s => cat s = Return key) (bucket cat key l).
Proof.
  apply List.Forall_forall. intros s Hs. apply filter_In in Hs as [_ Hs].
  destruct (cat s) as [k|]; [|discriminate].
  apply String.eqb_eq in Hs. congruence.
Qed.

Lemma bucket_incl (P : string -> Prop) key l :
  Forall P l -> Forall P (bucket cat key l).
Proof.
  rewrite !List.Forall_forall. intros H s Hs. apply filter_In in Hs as [Hs _]. auto.
Qed.

Lemma bucket_all key l :
  Forall (fun s => cat s = Return key) l -> bucket cat key l = l.
Proof.
  induction 1 as [|s r Hs _ IH]; [reflexivity|]. unfold bucket. simpl.
  rewrite Hs, String.eqb_refl. fold (bucket cat key r). rewrite IH. reflexivity.
Qed.

Lemma bucket_none key key' l :
  key' <> key -> Forall (fun s => cat s = Return key') l -> bucket cat key l = [].
Proof.
  intros Hne. induction 1 as [|s r Hs _ IH]; [reflexivity|]. unfold bucket. simpl.
  rewrite Hs. apply String.eqb_neq in Hne. rewrite Hne. exact IH.
Qed.

Lemma bucket_app key a b :
  bucket cat key (a ++ b) = bucket cat key a ++ bucket cat key b.
Proof. apply List.filter_app. Qed.

End Buckets.

(** ** C2: the pipeline run on its own output *)

Lemma concat_filter_truthy (L : list (list string)) :
  concat (List.filter truthy L) = concat L.
Proof.
  induction L as [|g L IH]; [reflexivity|]. simpl.
  destruct g; simpl; rewrite IH; reflexivity.
Qed.

Lemma with_blanks_entries (groups : list (list string)) :
  Forall (Forall extracted) groups ->
  Forall (fun s => s = "" \/ extracted s) (with_blanks groups).
Proof.
  induction 1 as [|g r Hg Hr IH]; [constructor|].
  assert (Hg' : Forall (fun s => s = "" \/ extracted s) g).
  { eapply Forall_impl; [exact Hg|]. auto. }
  destruct r as [|g2 r]; [exact Hg'|].
  rewrite with_blanks_cons by discriminate.
  apply Forall_app. split; [exact Hg'|]. constructor; [auto|exact IH].
Qed.

(** The extractor run on canonical text finds the text itself and the
    statements of its blocks. *)
Lemma import_lines_of_canonical (groups : list (list string)) :
  Forall (fun g => g <> [] /\ Forall extracted g) groups ->
  import_lines_of (Str.join Str.nl (with_blanks groups)) =
  (Str.join Str.nl (with_blanks groups), concat groups).
Proof.
  intros HG.
  assert (G1 : Forall (fun g => g <> [] /\ Forall (fun s => s <> "") g) groups).
  { eapply Forall_impl; [exact HG|]. intros g [Hne Hg]. split; [exact Hne|].
    eapply Forall_impl; [exact Hg|]. apply extracted_nonblank. }
  assert (G2 : Forall (Forall extracted) groups).
  { eapply Forall_impl; [exact HG|]. intros g [_ Hg]. exact Hg. }
  assert (G3 : Forall (Forall (fun s => single_line s = true)) groups).
  { eapply Forall_impl; [exact G2|]. intros g Hg.
    eapply Forall_impl; [exact Hg|]. intros s (_ & _ & Hs). exact Hs. }
  assert (G4 : Forall (Forall (fun s => s <> "")) groups).
  { eapply Forall_impl; [exact G1|]. intros g [_ Hg]. exact Hg. }
  destruct (with_blanks_ends groups G1) as (W1 & W2 & _).
  unfold import_lines_of.
  rewrite readlines_join by (try apply with_blanks_single_line; assumption).
  unfold scan_lines.
  destruct (with_blanks groups) as [|x w] eqn:EW.
  - destruct groups as [|g r]; [reflexivity|]. exfalso.
    revert EW. apply with_blanks_nonempty; [|discriminate].
    eapply Forall_impl; [exact G1|]. intros ? [? _]. assumption.
  - rewrite <- EW in *.
    rewrite (scan_terminated _ (with_blanks_entries groups G2) W2 [] []);
      [|intros _; exact W1|rewrite EW; discriminate].
    simpl app. rewrite with_blanks_filter by exact G4. reflexivity.
Qed.

(** The run on the canonical text, step by step. *)
Lemma pipeline_on_canonical py_import override (contents out : string) :
  result (pipeline py_import override contents) = Return out ->
  exists (stmts : list string) (d : gmap string (list string))
         (g : gmap string pyval),
    import_lines_of out = (out, stmts) /\
    result (construct_import_dict py_import stmts override) = Return d /\
    result (get_ordered_imports (VList <$> d)) = Return (out, g).
Proof.
  unfold pipeline. intros H.
  pose proof (import_lines_extracted contents) as Hext.
  destruct (import_lines_of contents) as [raw stmts]. simpl in Hext.
  rewrite result_bind in H.
  destruct (result (construct_import_dict py_import stmts override))
    as [d1|] eqn:Hc; [|discriminate].
  rewrite result_bind in H.
  destruct (result (get_ordered_imports (VList <$> d1))) as [[out' g1]|] eqn:Ho;
    [|discriminate].
  simpl in H. injection H as ->.
  destruct (get_ordered_imports_inv _ _ _ Ho)
    as (l1 & l2 & l3 & S1 & S2 & S3 & -> & _).
  rewrite items_of_fmap in S1, S2, S3.
  unfold construct_import_dict in Hc. rewrite group_lines_result in Hc.
  set (cat := cat_of py_import override) in *.
  rewrite (group_pure_bucket cat _ _ "standard" Hc) in S1.
  rewrite (group_pure_bucket cat _ _ "third_party" Hc) in S2.
  rewrite (group_pure_bucket cat _ _ "local" Hc) in S3.
  assert (Hl : forall key l,
            result (sorted (bucket cat key stmts)) = Return l ->
            Forall extracted l /\ Forall (fun s => cat s = Return key) l /\
            result (sorted l) = Return l).
  { intros key l Hs. pose proof (sorted_perm _ _ Hs) as Hp.
    split; [|split].
    - rewrite Hp. apply bucket_incl. exact Hext.
    - rewrite Hp. apply bucket_cat.
    - exact (sorted_idem _ _ Hs). }
  destruct (Hl _ _ S1) as (E1 & C1 & I1).
  destruct (Hl _ _ S2) as (E2 & C2 & I2).
  destruct (Hl _ _ S3) as (E3 & C3 & I3).
  clear Hl S1 S2 S3 Ho Hc Hext.
  assert (N : forall l, Forall extracted l -> Forall (fun s => s <> "") l).
  { intros l Hx. eapply Forall_impl; [exact Hx|]. apply extracted_nonblank. }
  destruct (ordered_text_groups l1 l2 l3 (N _ E1) (N _ E2) (N _ E3)) as [_ Et].
  assert (HG : Forall (fun g => g <> [] /\ Forall extracted g)
                 (List.filter truthy [l1; l2; l3])).
  { apply filter_truthy. repeat constructor; assumption. }
  pose proof (import_lines_of_canonical _ HG) as Hlines.
  rewrite <- Et, concat_filter_truthy in Hlines.
  simpl concat in Hlines. rewrite List.app_nil_r in Hlines.
  assert (Hcats : Forall (fun s => exists k, cat s = Return k) (l1 ++ l2 ++ l3)).
  { rewrite !List.Forall_app. repeat split;
      (eapply Forall_impl; [eassumption|]); simpl; eauto. }
  destruct (group_pure_returns cat _ Hcats ∅) as [d2 Hd2].
  exists (l1 ++ l2 ++ l3), d2, (ordered_dict (VList <$> d2) l1 l2 l3).
  split; [exact Hlines|]. split.
  { unfold construct_import_dict. rewrite group_lines_result. exact Hd2. }
  rewrite (get_ordered_imports_returns _ l1 l2 l3); [reflexivity| | |];
    rewrite items_of_fmap, (group_pure_bucket cat _ _ _ Hd2), !bucket_app.
  - rewrite (bucket_all cat _ _ C1).
    rewrite (bucket_none cat "standard" "third_party" l2), (bucket_none cat "standard" "local" l3)
      by (assumption || discriminate).
    rewrite !List.app_nil_r. exact I1.
  - rewrite (bucket_all cat _ _ C2).
    rewrite (bucket_none cat "third_party" "standard" l1), (bucket_none cat "third_party" "local" l3)
      by (assumption || discriminate).
    rewrite List.app_nil_r. exact I2.
  - rewrite (bucket_all cat _ _ C3).
    rewrite (bucket_none cat "local" "standard" l1), (bucket_none cat "local" "third_party" l2)
      by (assumption || discriminate).
    exact I3.
Qed.

(** C2. When the pipeline (extract, group, order) returns a canonical text
    for the contents of a file, running it on that text reproduces it: the
    extractor finds the text itself as the import block, the grouper and
    the orderer return it again, and the diff reporter, given a diff that
    is empty on equal inputs, prints nothing and returns 0, so that [main]'s
    step for a file holding the canonical text adds nothing to the exit
    status. *)
Theorem pipeline_idempotent :
  forall (py_import : string -> import_result) (override : option overrides)
         (contents out : string),
    result (pipeline py_import override contents) = Return out ->
    fst (import_lines_of out) = out /\
    result (pipeline py_import override out) = Return out /\
    (forall unified_diff filename,
        (forall a fromfile tofile, unified_diff a a fromfile tofile = []) ->
        verify_imports_order unified_diff (fst (import_lines_of out)) out filename =
        ret 0) /\
    (forall unified_diff read_file (args : clargs) (py_file : string),
        (forall a fromfile tofile, unified_diff a a fromfile tofile = []) ->
        override = Some (main_override args) ->
        read_file py_file = Some out ->
        result (check_file py_import read_file unified_diff args py_file) = Return 0).
Proof.
  intros py_import override contents out H.
  destruct (pipeline_on_canonical _ _ _ _ H) as (stmts & d & g & Hl & Hc & Ho).
  assert (Hv : forall unified_diff filename,
             (forall a fromfile tofile, unified_diff a a fromfile tofile = []) ->
             verify_imports_order unified_diff out out filename = ret 0).
  { intros unified_diff filename Hd. unfold verify_imports_order.
    rewrite Hd. reflexivity. }
  rewrite Hl. split; [reflexivity|]. split; [|split].
  - unfold pipeline. rewrite Hl. rewrite result_bind, Hc, result_bind, Ho.
    reflexivity.
  - exact Hv.
  - intros unified_diff read_file args py_file Hd -> Hr.
    unfold check_file, get_import_lines. rewrite Hr, bind_ret_l, Hl.
    rewrite result_bind, Hc, result_bind, Ho.
    rewrite (Hv _ _ Hd). reflexivity.
Qed.

Lemma demo_diff_same (a : list string) (fromfile tofile : string) :
  Demo.diff a a fromfile tofile = [].
Proof. unfold Demo.diff. destruct (decide (a = a)); congruence. Qed.

Lemma pipeline_idempotent_witness :
  let out :=
    "import os" +:+ Str.nl +:+ "import sys" +:+ Str.nl +:+ Str.nl +:+
    "import cv2" +:+ Str.nl +:+ Str.nl +:+ "from . import helper" in
  result (pipeline Demo.import_ (Some (main_override Demo.args)) Demo.unsorted_py) =
  Return out /\
  result (pipeline Demo.import_ (Some (main_override Demo.args)) out) = Return out /\
  result (check_file Demo.import_ (Demo.files out) Demo.diff Demo.args "a.py") =
  Return 0.
Proof.
  intros out.
  assert (H : result (pipeline Demo.import_ (Some (main_override Demo.args))
                        Demo.unsorted_py) = Return out)
    by (vm_compute; reflexivity).
  destruct (pipeline_idempotent _ _ _ _ H) as (_ & H2 & _ & H4).
  split; [exact H|]. split; [exact H2|].
  apply H4; [exact demo_diff_same|reflexivity|reflexivity].
Defined.

(** ** C5: the layout of the ordered text, continued *)

Lemma lower_module_char_nonspace (c : ascii) :
  module_char c = true -> Str.isspace (Str.lower_char c) = false.
Proof.
  destruct c as [[] [] [] [] [] [] [] []]; intros H; try discriminate H;
    reflexivity.
Qed.

Lemma words_cons_nonspace (c : ascii) (r : string) :
  Str.isspace c = false -> exists w ws, Str.words (String c r) = w :: ws.
Proof.
  intros Hc. simpl. rewrite Hc. destruct r as [|c2 r2]; [eauto|].
  destruct (Str.isspace c2); [eauto|].
  destruct (Str.words (String c2 r2)); eauto.
Qed.

(** A statement that matches the regular expression has a second word. *)
Lemma regex_has_key (s m : string) : import_regex s = Some m -> is_Some (key_of s).
Proof.
  intros H. apply import_regex_grammar in H.
  destruct H as (kw & m' & rest & Hkw & Hne & Hall & ->).
  destruct m' as [|c m']; [congruence|]. simpl in Hall.
  apply andb_true_iff in Hall as [Hc _].
  apply lower_module_char_nonspace in Hc.
  destruct (words_cons_nonspace _ (Str.lower (m' +:+ rest)) Hc) as (w & ws & Hw).
  unfold key_of.
  destruct Hkw as [-> | ->]; simpl; simpl in Hw; rewrite Hw; eauto.
Qed.

Lemma cat_of_regex py_import override (s k : string) :
  cat_of py_import override s = Return k -> exists m, import_regex s = Some m.
Proof.
  unfold cat_of, category_of, get_module_name_from_import.
  destruct (import_regex s) as [m|]; [eauto|discriminate].
Qed.

Lemma grouped_statement_lines py_import override (contents : string)
  (import_dict : gmap string (list string)) :
  result (construct_import_dict py_import (snd (import_lines_of contents))
            override) = Return import_dict ->
  forall key l s,
    import_dict !! key = Some l -> In s l -> statement_line s = true.
Proof.
  unfold construct_import_dict. rewrite group_lines_result. intros H key l s Hl Hs.
  pose proof (group_pure_bucket _ _ _ key H) as Hb. rewrite Hl in Hb. simpl in Hb.
  subst l. apply filter_In in Hs as [Hin Hcat].
  pose proof (import_lines_extracted contents) as Hext.
  rewrite List.Forall_forall in Hext. destruct (Hext s Hin) as (_ & _ & Hline).
  destruct (cat_of py_import override s) as [k|] eqn:E; [|discriminate].
  destruct (cat_of_regex _ _ _ _ E) as [m Hm].
  unfold statement_line. rewrite Hline. simpl.
  apply bool_decide_eq_true. exact (regex_has_key _ _ Hm).
Qed.

(** C5. Whenever [get_ordered_imports] returns, its text is made of the
    sorted blocks of the categories standard, third_party and local, in this
    order, the empty blocks left out and the others joined by one empty
    line. For a dictionary of grouped statements, each a line of text with
    a module name to sort on, it does return, and the text, cut into lines,
    nowhere has two empty lines in a row and, unless it is empty, neither
    begins nor ends with an empty line. The statements that the grouper
    files from the import lines of a file are all of this kind. *)
Theorem ordered_imports_layout :
  (forall (grouped_imports g' : gmap string pyval) (out : string),
      result (get_ordered_imports grouped_imports) = Return (out, g') ->
      exists l1 l2 l3 : list string,
        result (sorted (items_of grouped_imports "standard")) = Return l1 /\
        result (sorted (items_of grouped_imports "third_party")) = Return l2 /\
        result (sorted (items_of grouped_imports "local")) = Return l3 /\
        out = Str.join (Str.nl +:+ Str.nl)
                (List.filter (fun b => negb (String.eqb b ""))
                   [Str.join Str.nl l1; Str.join Str.nl l2; Str.join Str.nl l3])) /\
  (forall grouped : gmap string (list string),
      (forall key l s,
          In key CATEGORIES -> grouped !! key = Some l -> In s l ->
          statement_line s = true) ->
      exists (l1 l2 l3 : list string) (g' : gmap string pyval) (out : string),
        get_ordered_imports (VList <$> grouped) = ret (out, g') /\
        result (sorted (default [] (grouped !! "standard"))) = Return l1 /\
        result (sorted (default [] (grouped !! "third_party"))) = Return l2 /\
        result (sorted (default [] (grouped !! "local"))) = Return l3 /\
        out = Str.join (Str.nl +:+ Str.nl)
                (map (Str.join Str.nl) (List.filter truthy [l1; l2; l3])) /\
        (out = "" <-> List.filter truthy [l1; l2; l3] = []) /\
        (out <> "" ->
         Str.split Str.LF out = with_blanks (List.filter truthy [l1; l2; l3]) /\
         head (Str.split Str.LF out) <> Some "" /\
         last (Str.split Str.LF out) <> Some "") /\
        no_blank_run (Str.split Str.LF out) = true) /\
  (forall py_import override (contents : string)
          (import_dict : gmap string (list string)),
      result (construct_import_dict py_import (snd (import_lines_of contents))
                override) = Return import_dict ->
      forall key l s,
        import_dict !! key = Some l -> In s l -> statement_line s = true).
Proof.
  split; [|split; [exact ordered_imports_lines|exact grouped_statement_lines]].
  intros g g' out H.
  destruct (get_ordered_imports_inv _ _ _ H) as (l1 & l2 & l3 & H1 & H2 & H3 & -> & _).
  exists l1, l2, l3. auto.
Qed.

Lemma ordered_imports_layout_witness :
  exists (g' : gmap string pyval) (out : string),
    get_ordered_imports
      (VList <$> {["local" := ["from . import helper"; "import mine"]]}) =
    ret (out, g') /\
    Str.split Str.LF out = ["from . import helper"; "import mine"].
Proof.
  destruct (proj1 (proj2 ordered_imports_layout)
              {["local" := ["from . import helper"; "import mine"]]})
    as (l1 & l2 & l3 & g' & out & H & H1 & H2 & H3 & -> & _).
  - intros key l s Hkey Hl Hs.
    destruct Hkey as [<-|[<-|[<-|[]]]]; vm_compute in Hl; try discriminate.
    injection Hl as <-. destruct Hs as [<-|[<-|[]]]; reflexivity.
  - exists g'. eexists. split; [exact H|].
    vm_compute in H1, H2, H3.
    injection H1 as <-. injection H2 as <-. injection H3 as <-.
    reflexivity.
Defined.


(** * Further properties of the program *)

(** ** The classifiers and the override lists *)

Lemma mem_false_iff (x : string) (l : list string) : mem x l = false <-> ~ In x l.
Proof.
  rewrite <- mem_In. destruct (mem x l); split; intros H; congruence.
Qed.

(** X1. A module named in the 'third_party' override list is third party
    for [is_third_party_module], and one that is named only in the
    'standard' or 'local' list is not; in both cases nothing is imported. *)
Theorem third_party_override_decides :
  forall (py_import : string -> import_result) (module : string) (ov : overrides),
    (In module (ov_third_party ov) ->
     is_third_party_module py_import module (Some ov) = (Return true, [])) /\
    (~ In module (ov_third_party ov) ->
     In module (ov_standard ov) \/ In module (ov_local ov) ->
     is_third_party_module py_import module (Some ov) = (Return false, [])).
Proof.
  intros py_import module ov. unfold is_third_party_module. simpl. split.
  - intros H. apply mem_In in H. rewrite H. reflexivity.
  - intros H1 H2. apply mem_false_iff in H1. rewrite H1.
    assert (mem module (ov_standard ov) || mem module (ov_local ov) = true) as ->;
      [|reflexivity].
    apply orb_true_iff. rewrite !mem_In. exact H2.
Qed.

Lemma third_party_override_decides_witness :
  is_third_party_module Demo.broken_import "numpy" (Some (main_override Demo.args)) =
  (Return true, []).
Proof.
  apply (proj1 (third_party_override_decides Demo.broken_import "numpy"
                  (main_override Demo.args))).
  vm_compute. tauto.
Defined.

(** X2. A module named in the 'third_party' or 'local' override list, and
    not in the 'standard' one, is never standard for [is_standard_module],
    whatever the interpreter would say about it; nothing is imported. *)
Theorem other_override_is_not_standard :
  forall (py_import : string -> import_result) (module : string) (ov : overrides),
    ~ In module (ov_standard ov) ->
    In module (ov_third_party ov) \/ In module (ov_local ov) ->
    is_standard_module py_import module (Some ov) = (Return false, []).
Proof.
  intros py_import module ov H1 H2. unfold is_standard_module. simpl.
  apply mem_false_iff in H1. rewrite H1.
  assert (mem module (ov_third_party ov) || mem module (ov_local ov) = true) as ->;
    [|reflexivity].
  apply orb_true_iff. rewrite !mem_In. exact H2.
Qed.

Lemma other_override_is_not_standard_witness :
  is_standard_module Demo.import_ "os"
    (Some {| ov_standard := []; ov_third_party := []; ov_local := ["os"] |}) =
  (Return false, []).
Proof.
  apply (other_override_is_not_standard Demo.import_ "os"
           {| ov_standard := []; ov_third_party := []; ov_local := ["os"] |}).
  - simpl. tauto.
  - simpl. tauto.
Defined.

Lemma load_module_result py_import m :
  load_module py_import m =
  match py_import m with
  | Module repr => (Return (Some repr), [EImport m])
  | ImportError =>
      (Return None,
       [EImport m; EStdout ("Cannot import '" +:+ m +:+ "'." +:+ Str.nl)])
  | ImportRaises name => (Raise (Uncaught name), [EImport m])
  end.
Proof. unfold load_module. destruct (py_import m); reflexivity. Qed.

(** X3. The two classifiers never both answer [True] for a module, unless
    the caller listed it both as standard and as third party: the lists
    are consulted first, and for an imported module the one requires
    'site-packages' in its [repr] and the other its absence. *)
Theorem classifiers_exclusive :
  forall (py_import : string -> import_result) (module : string)
         (override : option overrides),
    ~ (In module (ov_standard (default EMPTY_OVERRIDE override)) /\
       In module (ov_third_party (default EMPTY_OVERRIDE override))) ->
    ~ (result (is_standard_module py_import module override) = Return true /\
       result (is_third_party_module py_import module override) = Return true).
Proof.
  intros py_import module override Hov [H1 H2].
  unfold is_standard_module, is_third_party_module in *.
  set (ov := default EMPTY_OVERRIDE override) in *. cbv zeta in H1, H2.
  destruct (mem module (ov_standard ov)) eqn:Es;
    destruct (mem module (ov_third_party ov)) eqn:Et.
  - apply Hov. rewrite <- !mem_In. auto.
  - simpl in H2. discriminate.
  - simpl in H1. discriminate.
  - simpl in H1, H2. destruct (mem module (ov_local ov)); [discriminate|].
    rewrite load_module_result in H1, H2.
    destruct (py_import module) as [repr| |name]; simpl in H1, H2;
      try discriminate.
    destruct (Str.contains "site-packages" repr); simpl in H1, H2; discriminate.
Qed.

Lemma classifiers_exclusive_witness :
  ~ (result (is_standard_module Demo.import_ "cv2" None) = Return true /\
     result (is_third_party_module Demo.import_ "cv2" None) = Return true).
Proof.
  apply (classifiers_exclusive Demo.import_ "cv2" None).
  simpl. tauto.
Defined.

(** ** The grouper, statement by statement *)

Lemma get_module_name_regex (s m : string) :
  import_regex s = Some m -> get_module_name_from_import s = ret m.
Proof. intros H. unfold get_module_name_from_import. rewrite H. reflexivity. Qed.

(** X4. The override lists take precedence in the order standard,
    third_party, local: a statement whose module (other than '.') is named
    in a list is filed under the first list that names it, and the module
    is not imported. *)
Theorem override_precedence :
  forall (py_import : string -> import_result) (ov : overrides)
         (final_imports : gmap string (list string)) (import_line m : string),
    import_regex import_line = Some m -> m <> "." ->
    (In m (ov_standard ov) ->
     group_line py_import (Some ov) final_imports import_line =
     (Return (dict_append final_imports "standard" import_line), [])) /\
    (~ In m (ov_standard ov) -> In m (ov_third_party ov) ->
     group_line py_import (Some ov) final_imports import_line =
     (Return (dict_append final_imports "third_party" import_line), [])) /\
    (~ In m (ov_standard ov) -> ~ In m (ov_third_party ov) -> In m (ov_local ov) ->
     group_line py_import (Some ov) final_imports import_line =
     (Return (dict_append final_imports "local" import_line), [])).
Proof.
  intros py_import ov d s m Hm Hdot. unfold group_line.
  rewrite (get_module_name_regex _ _ Hm), bind_ret_l.
  apply String.eqb_neq in Hdot. rewrite Hdot.
  unfold is_standard_module, is_third_party_module. simpl default.
  split; [|split].
  - intros H. apply mem_In in H. rewrite H. reflexivity.
  - intros H1 H2. apply mem_false_iff in H1. apply mem_In in H2.
    rewrite H1, H2. reflexivity.
  - intros H1 H2 H3. apply mem_false_iff in H1. apply mem_false_iff in H2.
    apply mem_In in H3. rewrite H1, H2, H3. reflexivity.
Qed.

Lemma override_precedence_witness :
  group_line Demo.broken_import
    (Some {| ov_standard := ["six"]; ov_third_party := ["six"]; ov_local := ["six"] |})
    ∅ "import six" =
  (Return (dict_append ∅ "standard" "import six"), []).
Proof.
  apply (proj1 (override_precedence Demo.broken_import
                  {| ov_standard := ["six"]; ov_third_party := ["six"];
                     ov_local := ["six"] |} ∅ "import six" "six"
                  eq_refl ltac:(discriminate))).
  simpl. tauto.
Defined.

Lemma unlisted_mem override m :
  unlisted override m ->
  mem m (ov_standard (default EMPTY_OVERRIDE override)) = false /\
  mem m (ov_third_party (default EMPTY_OVERRIDE override)) = false /\
  mem m (ov_local (default EMPTY_OVERRIDE override)) = false.
Proof. unfold unlisted. rewrite !mem_false_iff. tauto. Qed.

Lemma is_standard_module_unlisted py_import override m :
  unlisted override m ->
  is_standard_module py_import m override =
  match py_import m with
  | Module repr => (Return (standard_repr repr), [EImport m])
  | ImportError => (Return false, [EImport m; cannot_import m])
  | ImportRaises name => (Raise (Uncaught name), [EImport m])
  end.
Proof.
  intros (H1 & H2 & H3)%unlisted_mem. unfold is_standard_module. cbv zeta.
  rewrite H1, H2, H3. simpl orb. cbv iota. rewrite load_module_result.
  destruct (py_import m); reflexivity.
Qed.

Lemma is_third_party_module_unlisted py_import override m :
  unlisted override m ->
  is_third_party_module py_import m override =
  match py_import m with
  | Module repr => (Return (third_party_repr repr), [EImport m])
  | ImportError => (Return false, [EImport m; cannot_import m])
  | ImportRaises name => (Raise (Uncaught name), [EImport m])
  end.
Proof.
  intros (H1 & H2 & H3)%unlisted_mem. unfold is_third_party_module. cbv zeta.
  rewrite H1, H2, H3. simpl orb. cbv iota. rewrite load_module_result.
  destruct (py_import m); reflexivity.
Qed.

Lemma group_line_unlisted py_import override d s m :
  import_regex s = Some m -> m <> "." -> unlisted override m ->
  group_line py_import override d s =
  match py_import m with
  | Module repr =>
      if standard_repr repr then
        (Return (dict_append d "standard" s), [EImport m])
      else if third_party_repr repr then
        (Return (dict_append d "third_party" s), [EImport m; EImport m])
      else (Return (dict_append d "local" s), [EImport m; EImport m])
  | ImportError =>
      (Return (dict_append d "local" s),
       [EImport m; cannot_import m; EImport m; cannot_import m])
  | ImportRaises name => (Raise (Uncaught name), [EImport m])
  end.
Proof.
  intros Hm Hdot Hu. unfold group_line.
  rewrite (get_module_name_regex _ _ Hm), bind_ret_l.
  apply String.eqb_neq in Hdot. rewrite Hdot.
  rewrite (is_standard_module_unlisted _ _ _ Hu),
    (is_third_party_module_unlisted _ _ _ Hu).
  destruct (py_import m) as [repr| |name]; try reflexivity.
  destruct (standard_repr repr); [reflexivity|].
  destruct (third_party_repr repr); reflexivity.
Qed.

(** X5. A module that is in no override list and cannot be imported is
    filed as local; on the way the import is attempted twice, once by each
    classifier, and the message is printed twice. *)
Theorem unresolvable_module_is_local :
  forall (py_import : string -> import_result) (override : option overrides)
         (final_imports : gmap string (list string)) (import_line m : string),
    import_regex import_line = Some m -> m <> "." -> unlisted override m ->
    py_import m = ImportError ->
    group_line py_import override final_imports import_line =
    (Return (dict_append final_imports "local" import_line),
     [EImport m; cannot_import m; EImport m; cannot_import m]).
Proof.
  intros py_import override d s m Hm Hdot Hu Hi.
  rewrite (group_line_unlisted _ _ _ _ _ Hm Hdot Hu), Hi. reflexivity.
Qed.

Lemma unresolvable_module_is_local_witness :
  group_line Demo.import_ None ∅ "import mine" =
  (Return (dict_append ∅ "local" "import mine"),
   [EImport "mine"; cannot_import "mine"; EImport "mine"; cannot_import "mine"]).
Proof.
  apply (unresolvable_module_is_local Demo.import_ None ∅ "import mine" "mine").
  - reflexivity.
  - discriminate.
  - unfold unlisted. simpl. tauto.
  - reflexivity.
Defined.

(** X6. A module that is in no override list and is imported is filed by
    the [repr] of the module object alone: standard when the [repr] names a
    system library path or 'built-in' and not 'site-packages' (one import);
    third party when it names 'site-packages' and a system library path;
    local otherwise, in particular for 'site-packages' outside the system
    library paths (two imports in both cases). *)
Theorem imported_module_filed_by_repr :
  forall (py_import : string -> import_result) (override : option overrides)
         (final_imports : gmap string (list string)) (import_line m repr : string),
    import_regex import_line = Some m -> m <> "." -> unlisted override m ->
    py_import m = Module repr ->
    group_line py_import override final_imports import_line =
    if standard_repr repr then
      (Return (dict_append final_imports "standard" import_line), [EImport m])
    else if third_party_repr repr then
      (Return (dict_append final_imports "third_party" import_line),
       [EImport m; EImport m])
    else
      (Return (dict_append final_imports "local" import_line),
       [EImport m; EImport m]).
Proof.
  intros py_import override d s m repr Hm Hdot Hu Hi.
  rewrite (group_line_unlisted _ _ _ _ _ Hm Hdot Hu), Hi. reflexivity.
Qed.

(** An interpreter with a package installed in a virtual environment. *)
Lemma imported_module_filed_by_repr_witness :
  group_line
    (fun _ => Module "<module 'requests' from '/home/u/venv/lib/python2.7/site-packages/requests/__init__.pyc'>")
    None ∅ "import requests" =
  (Return (dict_append ∅ "local" "import requests"),
   [EImport "requests"; EImport "requests"]).
Proof.
  apply (imported_module_filed_by_repr
           (fun _ => Module "<module 'requests' from '/home/u/venv/lib/python2.7/site-packages/requests/__init__.pyc'>")
           None ∅ "import requests" "requests"
           "<module 'requests' from '/home/u/venv/lib/python2.7/site-packages/requests/__init__.pyc'>").
  - reflexivity.
  - discriminate.
  - unfold unlisted. simpl. tauto.
  - reflexivity.
Defined.

Lemma group_lines_raises py_import override l s :
  In s l ->
  (forall d, exists e, result (group_line py_import override d s) = Raise e) ->
  forall d, exists e, result (group_lines py_import override d l) = Raise e.
Proof.
  intros Hin Hs. induction l as [|x r IH]; [destruct Hin|]. intros d. simpl.
  rewrite result_bind.
  destruct (result (group_line py_import override d x)) as [d'|e] eqn:E;
    [|eauto].
  destruct Hin as [->|Hin]; [|apply IH; exact Hin].
  destruct (Hs d) as [e He]. congruence.
Qed.

(** X7. [load_module] catches [ImportError] only: when importing a module
    that is in no override list raises anything else, the exception leaves
    the loop body of the grouper after one import attempt, and
    [construct_import_dict] ends with an exception on every list that
    contains the statement. *)
Theorem import_exception_propagates :
  forall (py_import : string -> import_result) (override : option overrides)
         (import_line m name : string),
    import_regex import_line = Some m -> m <> "." -> unlisted override m ->
    py_import m = ImportRaises name ->
    (forall final_imports,
        group_line py_import override final_imports import_line =
        (Raise (Uncaught name), [EImport m])) /\
    (forall import_lines,
        In import_line import_lines ->
        exists e, result (construct_import_dict py_import import_lines override)
                  = Raise e).
Proof.
  intros py_import override s m name Hm Hdot Hu Hi.
  assert (H : forall d, group_line py_import override d s =
                        (Raise (Uncaught name), [EImport m])).
  { intros d. rewrite (group_line_unlisted _ _ _ _ _ Hm Hdot Hu), Hi. reflexivity. }
  split; [exact H|]. intros l Hin. unfold construct_import_dict.
  apply (group_lines_raises _ _ _ s Hin). intros d. rewrite H. eauto.
Qed.

Lemma import_exception_propagates_witness :
  group_line Demo.broken_import None ∅ "import os" =
  (Raise (Uncaught "SystemError"), [EImport "os"]).
Proof.
  apply (proj1 (import_exception_propagates Demo.broken_import None
                  "import os" "os" "SystemError" eq_refl ltac:(discriminate)
                  ltac:(unfold unlisted; simpl; tauto) eq_refl)).
Defined.

(** ** The grouper on whole lists *)

Lemma cat_of_keys py_import override (s k : string) :
  cat_of py_import override s = Return k -> In k CATEGORIES.
Proof.
  unfold cat_of, category_of. rewrite result_bind.
  destruct (result (get_module_name_from_import s)) as [m|]; [|discriminate].
  destruct (String.eqb m "."); [intros [= <-]; simpl; tauto|].
  rewrite result_bind.
  destruct (result (is_standard_module py_import m override)) as [[|]|];
    [intros [= <-]; simpl; tauto| |discriminate].
  rewrite result_bind.
  destruct (result (is_third_party_module py_import m override)) as [[|]|];
    [intros [= <-]; simpl; tauto|intros [= <-]; simpl; tauto|discriminate].
Qed.

Lemma group_pure_inv (cat : string -> outcome string) l :
  forall d d', group_pure cat d l = Return d' ->
               Forall (fun s => exists k, cat s = Return k) l.
Proof.
  induction l as [|s r IH]; intros d d' H; [constructor|]. simpl in H.
  destruct (cat s) as [k|] eqn:E; [|discriminate].
  constructor; [eauto|]. exact (IH _ _ H).
Qed.

Lemma filter_sublist {A} (f : A -> bool) (l : list A) : sublist (List.filter f l) l.
Proof.
  induction l as [|x l IH]; [constructor|]. simpl.
  destruct (f x); [apply sublist_skip|apply sublist_cons]; exact IH.
Qed.

Lemma bucket_partition (cat : string -> outcome string) (l : list string) :
  Forall (fun s => exists k, cat s = Return k /\ In k CATEGORIES) l ->
  l ≡ₚ bucket cat "standard" l ++ bucket cat "third_party" l ++ bucket cat "local" l.
Proof.
  induction 1 as [|s r (k & Hk & Hin) _ IH]; [reflexivity|].
  unfold bucket in *. simpl. rewrite Hk.
  destruct Hin as [<-|[<-|[<-|[]]]]; simpl.
  - constructor. exact IH.
  - rewrite <- Permutation_middle. constructor. exact IH.
  - rewrite List.app_assoc, <- Permutation_middle, <- List.app_assoc.
    constructor. exact IH.
Qed.

(** X8. When [construct_import_dict] returns, its dictionary is a partition
    of the statements: only the keys 'standard', 'third_party' and 'local'
    occur, no key is bound to an empty list, the three lists together are a
    rearrangement of the input, and each list keeps the statements in the
    order of the input. *)
Theorem construct_import_dict_partitions :
  forall (py_import : string -> import_result) (override : option overrides)
         (import_lines : list string) (d : gmap string (list string)),
    result (construct_import_dict py_import import_lines override) = Return d ->
    (forall key l, d !! key = Some l -> In key CATEGORIES /\ l <> []) /\
    import_lines ≡ₚ
      default [] (d !! "standard") ++ default [] (d !! "third_party") ++
      default [] (d !! "local") /\
    (forall key, sublist (default [] (d !! key)) import_lines).
Proof.
  intros py_import override l d H. unfold construct_import_dict in H.
  rewrite group_lines_result in H.
  set (cat := cat_of py_import override) in *.
  pose proof (group_pure_bucket cat _ _ "standard" H) as B1.
  pose proof (group_pure_bucket cat _ _ "third_party" H) as B2.
  pose proof (group_pure_bucket cat _ _ "local" H) as B3.
  split; [|split].
  - intros key ll Hl. pose proof (group_pure_bucket cat _ _ key H) as B.
    pose proof (group_pure_lookup cat _ _ _ H key) as L.
    rewrite lookup_empty in L. rewrite Hl in B, L. simpl in B.
    destruct (bucket cat key l) as [|s b] eqn:Eb; [discriminate|].
    split; [|rewrite B; discriminate].
    assert (Hs : In s (bucket cat key l)) by (rewrite Eb; left; reflexivity).
    apply filter_In in Hs as [_ Hs].
    destruct (cat s) as [k|] eqn:Ek; [|discriminate].
    apply String.eqb_eq in Hs as <-. exact (cat_of_keys _ _ _ _ Ek).
  - rewrite B1, B2, B3. apply bucket_partition.
    eapply Forall_impl; [exact (group_pure_inv _ _ _ _ H)|].
    intros s [k Hk]. exists k. split; [exact Hk|]. exact (cat_of_keys _ _ _ _ Hk).
  - intros key. rewrite (group_pure_bucket cat _ _ key H). apply filter_sublist.
Qed.

Lemma construct_import_dict_partitions_witness :
  exists d,
    result (construct_import_dict Demo.import_ ["import sys"; "import cv2"; "import os"]
              None) = Return d /\
    ["import sys"; "import cv2"; "import os"] ≡ₚ
      default [] (d !! "standard") ++ default [] (d !! "third_party") ++
      default [] (d !! "local").
Proof.
  eexists. 
  assert (H : result (construct_import_dict Demo.import_
                        ["import sys"; "import cv2"; "import os"] None) =
              Return (<["third_party" := ["import cv2"]]>
                        (<["standard" := ["import sys"; "import os"]]> ∅)))
    by (vm_compute; reflexivity).
  split; [exact H|].
  exact (proj1 (proj2 (construct_import_dict_partitions _ _ _ _ H))).
Defined.

(** ** The sort of a block *)

Lemma key_sorted_lookup (Y : list (string * string)) (i : nat) p q :
  key_sorted Y -> Y !! i = Some p -> Y !! (S i) = Some q ->
  Str.lt (fst q) (fst p) = false.
Proof.
  revert i. induction Y as [|x Y IH]; intros i Hs Hp Hq; [discriminate|].
  destruct Hs as [Hx HY]. destruct i as [|i].
  - simpl in Hp. injection Hp as <-. destruct Y as [|y Y]; [discriminate|].
    simpl in Hq. injection Hq as <-. exact Hx.
  - exact (IH i HY Hp Hq).
Qed.

Lemma filter_decorated (k : string) (Y : list (string * string)) :
  Forall (fun p => key_of (snd p) = Some (fst p)) Y ->
  List.filter (fun s => bool_decide (key_of s = Some k)) (map snd Y) =
  map snd (List.filter (fun p => String.eqb (fst p) k) Y).
Proof.
  induction 1 as [|[kx x] Y Hx _ IH]; [reflexivity|]. simpl in *.
  rewrite Hx, IH.
  destruct (String.eqb_spec kx k) as [->|Hne].
  - rewrite bool_decide_eq_true_2 by reflexivity. reflexivity.
  - rewrite bool_decide_eq_false_2 by congruence. reflexivity.
Qed.

(** X9. What [sorted] with the key of [get_ordered_imports] returns is a
    rearrangement of the items in which the keys (the lower-cased second
    words) never decrease from one item to the next and the items with the
    same key keep the order they had; it raises [IndexError] exactly when
    some item has fewer than two words. *)
Theorem sorted_specification :
  forall items : list string,
    (forall l,
        result (sorted items) = Return l ->
        l ≡ₚ items /\
        (forall i a b,
            l !! i = Some a -> l !! (S i) = Some b ->
            exists ka kb,
              key_of a = Some ka /\ key_of b = Some kb /\ Str.lt kb ka = false) /\
        (forall k,
            List.filter (fun s => bool_decide (key_of s = Some k)) l =
            List.filter (fun s => bool_decide (key_of s = Some k)) items)) /\
    ((exists s, In s items /\ key_of s = None) <->
     result (sorted items) = Raise IndexError) /\
    ((forall s, In s items -> is_Some (key_of s)) <->
     exists l, result (sorted items) = Return l).
Proof.
  intros items.
  assert (Hret : (forall s, In s items -> is_Some (key_of s)) <->
                 exists l, result (sorted items) = Return l).
  { split.
    - intros H. apply sorted_returns, List.Forall_forall. exact H.
    - intros [l Hl]. apply List.Forall_forall. exact (sorted_inv_keys _ _ Hl). }
  split; [|split; [|exact Hret]].
  - intros l Hl. split; [exact (sorted_perm _ _ Hl)|].
    rewrite sorted_result in Hl.
    destruct (mapM key_of items) as [ks|] eqn:E; [|discriminate].
    injection Hl as <-. destruct (combine_decorated items ks E) as [Hd Hitems].
    set (Y := stable_sort (combine ks items)).
    assert (HY : Forall (fun p => key_of (snd p) = Some (fst p)) Y).
    { unfold Y. rewrite stable_sort_perm. exact Hd. }
    split.
    + intros i a b Ha Hb. rewrite list_lookup_fmap in Ha, Hb.
      destruct (Y !! i) as [p|] eqn:Ep; [|discriminate].
      destruct (Y !! S i) as [q|] eqn:Eq; [|discriminate].
      simpl in Ha, Hb. injection Ha as <-. injection Hb as <-.
      rewrite List.Forall_forall in HY.
      exists (fst p), (fst q). split; [|split].
      * apply HY. apply list_elem_of_In. eapply list_elem_of_lookup_2. exact Ep.
      * apply HY. apply list_elem_of_In. eapply list_elem_of_lookup_2. exact Eq.
      * exact (key_sorted_lookup Y i p q (stable_sort_sorted _) Ep Eq).
    + intros k. rewrite (filter_decorated k Y HY). unfold Y.
      rewrite stable_sort_stable, <- (filter_decorated k _ Hd), Hitems.
      reflexivity.
  - rewrite sorted_result. split.
    + intros (s & Hin & Hs).
      destruct (mapM key_of items) as [ks|] eqn:E; [|reflexivity]. exfalso.
      assert (Hall : Forall (fun s => is_Some (key_of s)) items)
        by (apply mapM_is_Some; eauto).
      rewrite List.Forall_forall in Hall. destruct (Hall s Hin) as [k Hk]. congruence.
    + intros H. destruct (mapM key_of items) as [ks|] eqn:E; [discriminate|].
      destruct (Forall_Exists_dec (fun s => is_Some (key_of s))
                  (fun s => ~ is_Some (key_of s))
                  (fun s => decide (is_Some (key_of s))) items) as [Hall|Hex].
      * apply mapM_is_Some in Hall. destruct Hall as [ks Hks]. congruence.
      * apply List.Exists_exists in Hex as (s & Hin & Hs). exists s.
        split; [exact Hin|]. destruct (key_of s); [exfalso; apply Hs; eauto|reflexivity].
Qed.

Lemma sorted_specification_witness :
  result (sorted ["import sys"; "from Os import path"; "import os"]) =
  Return ["from Os import path"; "import os"; "import sys"] /\
  ["from Os import path"; "import os"; "import sys"] ≡ₚ
  ["import sys"; "from Os import path"; "import os"].
Proof.
  assert (H : result (sorted ["import sys"; "from Os import path"; "import os"]) =
              Return ["from Os import path"; "import os"; "import sys"])
    by reflexivity.
  split; [exact H|].
  exact (proj1 (proj1 (sorted_specification _) _ H)).
Defined.

(** ** Calling the orderer twice *)

Lemma get_ordered_imports_result g :
  result (get_ordered_imports g) =
  match result (sorted (items_of g "standard")) with
  | Raise e => Raise e
  | Return l1 =>
      match result (sorted (items_of g "third_party")) with
      | Raise e => Raise e
      | Return l2 =>
          match result (sorted (items_of g "local")) with
          | Raise e => Raise e
          | Return l3 => Return (ordered_text l1 l2 l3, ordered_dict g l1 l2 l3)
          end
      end
  end.
Proof.
  destruct (result (sorted (items_of g "standard"))) as [l1|e] eqn:H1.
  2:{ unfold get_ordered_imports, CATEGORIES. simpl order_keys.
      rewrite (order_key_raises _ _ _ H1). reflexivity. }
  destruct (result (sorted (items_of g "third_party"))) as [l2|e] eqn:H2.
  2:{ unfold get_ordered_imports, CATEGORIES. simpl order_keys.
      rewrite (order_key_returns _ _ _ H1), bind_ret_l.
      rewrite (order_key_raises _ _ e)
        by (rewrite items_of_insert_ne by discriminate; exact H2).
      reflexivity. }
  destruct (result (sorted (items_of g "local"))) as [l3|e] eqn:H3.
  2:{ unfold get_ordered_imports, CATEGORIES. simpl order_keys.
      rewrite (order_key_returns _ _ _ H1), bind_ret_l.
      rewrite (order_key_returns _ _ l2), bind_ret_l
        by (rewrite items_of_insert_ne by discriminate; exact H2).
      rewrite (order_key_raises _ _ e)
        by (rewrite !items_of_insert_ne by discriminate; exact H3).
      reflexivity. }
  rewrite (get_ordered_imports_returns _ _ _ _ H1 H2 H3). reflexivity.
Qed.

Lemma key_of_one_char (c : ascii) : key_of (String c "") = None.
Proof.
  unfold key_of. simpl. destruct (Str.isspace (Str.lower_char c)); reflexivity.
Qed.

(** Sorting a string: nothing to do for '', [IndexError] otherwise. *)
Lemma sorted_string (b : string) :
  result (sorted (iter_items (VStr b))) =
  if String.eqb b "" then Return [] else Raise IndexError.
Proof.
  rewrite sorted_result. destruct b as [|c b]; [reflexivity|].
  simpl. rewrite key_of_one_char. reflexivity.
Qed.

Lemma ordered_dict_items g l1 l2 l3 :
  items_of (ordered_dict g l1 l2 l3) "standard" = iter_items (VStr (Str.join Str.nl l1)) /\
  items_of (ordered_dict g l1 l2 l3) "third_party" = iter_items (VStr (Str.join Str.nl l2)) /\
  items_of (ordered_dict g l1 l2 l3) "local" = iter_items (VStr (Str.join Str.nl l3)).
Proof.
  unfold items_of, ordered_dict. repeat split.
  - rewrite !lookup_insert_ne by discriminate. rewrite lookup_insert_eq. reflexivity.
  - rewrite lookup_insert_ne by discriminate. rewrite lookup_insert_eq. reflexivity.
  - rewrite lookup_insert_eq. reflexivity.
Qed.

(** X10. [get_ordered_imports] cannot be applied twice to the same
    dictionary: after a call that returned a non-empty text the keys hold
    strings, and a second call on the dictionary raises [IndexError]. Only
    when the text was empty does the second call return, with the empty
    text and the dictionary unchanged. *)
Theorem ordered_imports_second_call :
  forall (grouped_imports g' : gmap string pyval) (out : string),
    result (get_ordered_imports grouped_imports) = Return (out, g') ->
    (out <> "" /\ result (get_ordered_imports g') = Raise IndexError) \/
    (out = "" /\ get_ordered_imports g' = ret ("", g')).
Proof.
  intros g g' out H.
  destruct (get_ordered_imports_inv _ _ _ H) as (l1 & l2 & l3 & _ & _ & _ & -> & ->).
  destruct (ordered_dict_items g l1 l2 l3) as (I1 & I2 & I3).
  pose proof (get_ordered_imports_result (ordered_dict g l1 l2 l3)) as R.
  rewrite I1, I2, I3, !sorted_string in R.
  unfold ordered_text at 1 2. simpl List.filter.
  destruct (String.eqb_spec (Str.join Str.nl l1) "") as [E1|E1].
  2:{ left. split; [|exact R]. simpl negb. cbv iota.
      apply join_head_nonblank; [simpl; congruence|discriminate]. }
  destruct (String.eqb_spec (Str.join Str.nl l2) "") as [E2|E2].
  2:{ left. split; [|exact R]. simpl negb. cbv iota.
      apply join_head_nonblank; [simpl; congruence|discriminate]. }
  destruct (String.eqb_spec (Str.join Str.nl l3) "") as [E3|E3].
  2:{ left. split; [|exact R]. simpl negb. cbv iota.
      apply join_head_nonblank; [simpl; congruence|discriminate]. }
  right. split; [reflexivity|].
  rewrite (get_ordered_imports_returns _ [] [] []);
    [|rewrite ?I1, ?I2, ?I3, sorted_string, ?E1, ?E2, ?E3; reflexivity..].
  unfold ret. f_equal. f_equal. unfold ordered_text. simpl. f_equal.
  assert (L1 : ordered_dict g l1 l2 l3 !! "standard" = Some (VStr "")).
  { unfold ordered_dict. rewrite !lookup_insert_ne by discriminate.
    rewrite lookup_insert_eq, E1. reflexivity. }
  assert (L2 : ordered_dict g l1 l2 l3 !! "third_party" = Some (VStr "")).
  { unfold ordered_dict. rewrite lookup_insert_ne by discriminate.
    rewrite lookup_insert_eq, E2. reflexivity. }
  assert (L3 : ordered_dict g l1 l2 l3 !! "local" = Some (VStr "")).
  { unfold ordered_dict. rewrite lookup_insert_eq, E3. reflexivity. }
  unfold ordered_dict at 1. simpl Str.join.
  rewrite (insert_id _ _ _ L1), (insert_id _ _ _ L2), (insert_id _ _ _ L3).
  reflexivity.
Qed.

Lemma ordered_imports_second_call_witness :
  exists g' out,
    result (get_ordered_imports {["standard" := VList ["import os"]]}) =
    Return (out, g') /\
    result (get_ordered_imports g') = Raise IndexError.
Proof.
  eexists _, _.
  assert (H : result (get_ordered_imports {["standard" := VList ["import os"]]}) =
              Return (ordered_text ["import os"] [] [],
                      ordered_dict {["standard" := VList ["import os"]]}
                        ["import os"] [] [])).
  { rewrite (get_ordered_imports_returns _ ["import os"] [] []); reflexivity. }
  split; [exact H|].
  destruct (ordered_imports_second_call _ _ _ H) as [[_ H2]|[H1 _]];
    [exact H2|discriminate H1].
Defined.

(** ** The import block, exactly *)

Lemma ltrim_blank_all (l : list string) : Forall (eq "") l -> ltrim_blank l = [].
Proof. induction 1 as [|x l <- _ IH]; [reflexivity|exact IH]. Qed.

Lemma rtrim_blank_all (l : list string) : Forall (eq "") l -> rtrim_blank l = [].
Proof. induction 1 as [|x l <- _ IH]; [reflexivity|]. simpl. rewrite IH. reflexivity. Qed.

Lemma rtrim_blank_app (il pend : list string) :
  last il <> Some "" -> Forall (eq "") pend -> rtrim_blank (il ++ pend) = il.
Proof.
  intros Hl Hp. induction il as [|x il IH]; [apply rtrim_blank_all; exact Hp|].
  simpl. destruct il as [|y il].
  - simpl. rewrite (rtrim_blank_all _ Hp).
    destruct (String.eqb_spec x "") as [->|]; [|reflexivity].
    exfalso. apply Hl. reflexivity.
  - rewrite IH by exact Hl. reflexivity.
Qed.

Lemma scan_fold_entries (lines : list string) :
  forall il pend,
    Forall (eq "") pend -> (il = [] -> pend = []) ->
    let st := fold_left scan_line lines (il, pend) in
    fst st ++ snd st =
    (if truthy il then il ++ pend ++ block_entries lines
     else ltrim_blank (block_entries lines)) /\
    Forall (eq "") (snd st).
Proof.
  induction lines as [|l r IH]; intros il pend Hp Hil.
  - simpl. split; [|exact Hp]. unfold block_entries. simpl.
    destruct il; [rewrite (Hil eq_refl); reflexivity|].
    simpl. rewrite List.app_nil_r. reflexivity.
  - rewrite fold_left_cons. unfold block_entries, block_entry. simpl List.filter.
    destruct (import_start l) eqn:E.
    + rewrite (scan_line_import _ _ _ E). simpl orb. cbv iota. simpl map. rewrite E.
      destruct (IH ((il ++ pend) ++ [Str.strip l]) []) as [H1 H2];
        [constructor|
         intros H; apply app_eq_nil in H as [_ H]; discriminate|].
      split; [|exact H2]. cbv zeta in H1. rewrite H1.
      assert (truthy ((il ++ pend) ++ [Str.strip l]) = true) as ->.
      { destruct ((il ++ pend)); reflexivity. }
      fold (block_entry). fold (block_entries r). simpl app.
      destruct il as [|x il].
      * rewrite (Hil eq_refl). simpl.
        destruct (String.eqb_spec (Str.strip l) "") as [E0|_]; [|reflexivity].
        exfalso. exact (strip_import_start l E E0).
      * simpl. rewrite <- !List.app_assoc. reflexivity.
    + simpl orb. destruct (String.eqb_spec l Str.nl) as [->|Hne].
      * simpl map. change (import_start Str.nl) with false. cbv iota.
        fold (block_entry). fold (block_entries r).
        destruct il as [|x il].
        -- rewrite (Hil eq_refl).
           change (scan_line ([], []) Str.nl) with (@nil string, @nil string).
           destruct (IH [] []) as [H1 H2]; [constructor|reflexivity|].
           split; [|exact H2]. exact H1.
        -- rewrite scan_line_blank by reflexivity.
           destruct (IH (x :: il) (pend ++ [""])) as [H1 H2];
             [apply Forall_app; split; [exact Hp|repeat constructor]|discriminate|].
           split; [|exact H2]. cbv zeta in H1. rewrite H1. simpl truthy. cbv iota.
           rewrite <- !List.app_assoc. reflexivity.
      * rewrite (scan_line_skip _ l E Hne).
        fold (block_entry). fold (block_entries r).
        exact (IH il pend Hp Hil).
Qed.

(** X11. The import block that [get_import_lines] rebuilds is exactly this:
    the import lines of the file (stripped) and its lines that consist of a
    single LF (as empty entries), in file order, all other lines deleted,
    and the empty entries at the front and at the end then removed. Blank
    lines are thus kept in number between two imports, whatever other
    lines stand among them. *)
Theorem import_block_exact :
  forall lines : list string,
    scan_lines lines =
    (Str.join Str.nl (rtrim_blank (ltrim_blank (block_entries lines))),
     List.filter (fun i => negb (String.eqb i ""))
       (rtrim_blank (ltrim_blank (block_entries lines)))).
Proof.
  intros lines. unfold scan_lines.
  destruct (scan_fold_entries lines [] [] (List.Forall_nil _) (fun _ => eq_refl))
    as [H1 H2].
  destruct (scan_fold_invariant lines [] []) as [_ H3];
    [reflexivity|discriminate|discriminate|].
  simpl in H1, H3.
  destruct (fold_left scan_line lines ([], [])) as [il pend]. simpl in *.
  rewrite <- H1, (rtrim_blank_app il pend H3 H2). reflexivity.
Qed.

(** X12. A file has no import line exactly when the extractor returns the
    empty block and the empty statement list; for such a file the step of
    [main] imports nothing, prints nothing (given a diff that is empty on
    equal inputs) and adds 0 to the exit status. *)
Theorem no_import_lines_no_diff :
  forall contents : string,
    ((forall line, In line (Str.readlines contents) -> import_start line = false) <->
     import_lines_of contents = ("", [])) /\
    ((forall line, In line (Str.readlines contents) -> import_start line = false) ->
     forall py_import read_file unified_diff (args : clargs) (py_file : string),
       (forall a fromfile tofile, unified_diff a a fromfile tofile = []) ->
       read_file py_file = Some contents ->
       check_file py_import read_file unified_diff args py_file = (Return 0, [])).
Proof.
  intros contents.
  assert (Hno : (forall line, In line (Str.readlines contents) ->
                              import_start line = false) ->
                import_lines_of contents = ("", [])).
  { intros H. unfold import_lines_of. rewrite import_block_exact.
    assert (E : ltrim_blank (block_entries (Str.readlines contents)) = []).
    { apply ltrim_blank_all. unfold block_entries.
      apply List.Forall_forall. intros e He.
      apply in_map_iff in He as (line & <- & Hin). apply filter_In in Hin as [Hin _].
      unfold block_entry. rewrite (H line Hin). reflexivity. }
    rewrite E. reflexivity. }
  split; [split; [exact Hno|]|].
  - intros H line Hin.
    destruct (import_start line) eqn:E; [|reflexivity]. exfalso.
    assert (Hs : In (Str.strip line) (snd (import_lines_of contents))).
    { unfold import_lines_of. rewrite scan_lines_statements.
      apply in_map, filter_In. auto. }
    rewrite H in Hs. destruct Hs.
  - intros H py_import read_file unified_diff args py_file Hd Hr.
    unfold check_file, get_import_lines. rewrite Hr, bind_ret_l, (Hno H).
    unfold construct_import_dict. simpl group_lines. rewrite bind_ret_l.
    rewrite (get_ordered_imports_returns _ [] [] []) by reflexivity.
    rewrite bind_ret_l. unfold verify_imports_order.
    change (ordered_text [] [] []) with "". rewrite Hd. reflexivity.
Qed.

Lemma no_import_lines_no_diff_witness :
  check_file Demo.broken_import
    (Demo.files (text_of_lines ["x = 1"; ""; "    import os"]))
    Demo.diff Demo.args "a.py" = (Return 0, []).
Proof.
  apply (proj2 (no_import_lines_no_diff (text_of_lines ["x = 1"; ""; "    import os"]))).
  - intros line Hin. vm_compute in Hin.
    destruct Hin as [<-|[<-|[<-|[]]]]; reflexivity.
  - exact demo_diff_same.
  - reflexivity.
Defined.

(** ** The module name of a statement *)

Lemma span_module_maximal (s m t : string) :
  span_module s = (m, t) ->
  match t with String c _ => module_char c = false | EmptyString => True end.
Proof.
  revert m t. induction s as [|c s IH]; intros m t H; simpl in H.
  - injection H as <- <-. exact I.
  - destruct (module_char c) eqn:Hc.
    + destruct (span_module s) as [m' t'] eqn:Hs. injection H as <- <-.
      exact (IH _ _ eq_refl).
    + injection H as <- <-. exact Hc.
Qed.

Lemma span_module_spec (m t : string) :
  str_forall module_char m = true ->
  match t with String c _ => module_char c = false | EmptyString => True end ->
  span_module (m +:+ t) = (m, t).
Proof.
  intros Hm Ht. induction m as [|c m IH].
  - rewrite sapp_nil_l. destruct t as [|c t]; [reflexivity|]. simpl. rewrite Ht.
    reflexivity.
  - simpl in Hm. apply andb_true_iff in Hm as [Hc Hm]. rewrite sapp_cons. simpl.
    rewrite Hc, (IH Hm). reflexivity.
Qed.

Lemma after_keyword_spec (line r : string) :
  after_keyword line = Some r <->
  exists kw, (kw = "from" \/ kw = "import") /\ line = kw +:+ " " +:+ r.
Proof.
  unfold after_keyword. split.
  - destruct (Str.after_prefix "from " line) as [r'|] eqn:H1.
    + intros [= ->]. exists "from". split; [auto|]. exact (after_prefix_app _ _ _ H1).
    + intros H2. exists "import". split; [auto|]. exact (after_prefix_app _ _ _ H2).
  - intros (kw & [-> | ->] & ->); reflexivity.
Qed.

(** X13. [get_module_name_from_import] returns [m] exactly when the
    statement is "from" or "import", one space, then [m], a non-empty run
    of letters, digits, '_' and '.', which is as long as possible (what
    follows does not start with such a character), and the rest has no LF
    other than a final one. So "import os.path" gives "os.path", "import
    a, b" gives "a", and '.' is returned only when the dot stands alone. *)
Theorem module_name_specification :
  forall s m : string,
    get_module_name_from_import s = ret m <->
    exists kw rest : string,
      (kw = "from" \/ kw = "import") /\
      s = kw +:+ " " +:+ m +:+ rest /\
      m <> "" /\ str_forall module_char m = true /\
      match rest with String c _ => module_char c = false | EmptyString => True end /\
      dot_star_eol rest = true.
Proof.
  intros s m. unfold get_module_name_from_import, import_regex. split.
  - destruct (after_keyword s) as [r|] eqn:Hk; [|discriminate].
    apply after_keyword_spec in Hk as (kw & Hkw & ->).
    destruct (span_module r) as [m0 t] eqn:Hs.
    destruct (String.eqb_spec m0 "") as [|Hne]; [discriminate|].
    destruct (dot_star_eol t) eqn:Ht; [|discriminate].
    intros [= <-]. exists kw, t.
    pose proof (span_module_maximal _ _ _ Hs) as Hmax.
    apply span_module_app in Hs as [-> Hall]. auto 10.
  - intros (kw & rest & Hkw & -> & Hne & Hall & Hmax & Hrest).
    assert (after_keyword (kw +:+ " " +:+ m +:+ rest) = Some (m +:+ rest)) as ->
      by (apply after_keyword_spec; eauto).
    rewrite (span_module_spec m rest Hall Hmax).
    apply String.eqb_neq in Hne. rewrite Hne, Hrest. reflexivity.
Qed.

Lemma module_name_specification_witness :
  get_module_name_from_import "import a, b" = ret "a".
Proof.
  apply (proj2 (module_name_specification "import a, b" "a")).
  exists "import", ", b". repeat split; (auto || discriminate).
Defined.

Lemma dot_star_eol_single_line (t : string) :
  single_line t = true -> dot_star_eol t = true.
Proof.
  unfold single_line. induction t as [|c t IH]; [reflexivity|]. simpl.
  intros [Hc Ht]%andb_true_iff. apply negb_true_iff in Hc. rewrite Hc. exact (IH Ht).
Qed.

Lemma single_line_regex (s : string) :
  single_line s = true -> import_grammar s -> exists m, import_regex s = Some m.
Proof.
  intros Hs (kw & m0 & rest & Hkw & Hne & Hall & ->).
  unfold import_regex.
  assert (after_keyword (kw +:+ " " +:+ m0 +:+ rest) = Some (m0 +:+ rest)) as ->
    by (apply after_keyword_spec; eauto).
  destruct (span_module (m0 +:+ rest)) as [m t] eqn:E.
  assert (Hm : m <> "").
  { destruct m0 as [|c m0]; [congruence|]. simpl in Hall.
    apply andb_true_iff in Hall as [Hc _]. rewrite sapp_cons in E. simpl in E.
    rewrite Hc in E. destruct (span_module (m0 +:+ rest)). injection E as <- _.
    discriminate. }
  apply String.eqb_neq in Hm. rewrite Hm.
  apply span_module_app in E as [E _].
  rewrite E, !single_line_app in Hs.
  repeat (apply andb_true_iff in Hs as [? Hs]).
  rewrite (dot_star_eol_single_line t Hs). eauto.
Qed.

(** X14. On a statement that is a single line, as every statement of the
    extractor is, [get_module_name_from_import] raises [ValueError]
    exactly when the statement is outside the grammar '^(from|import)
    <dotted identifier>': what follows the module name never matters. *)
Theorem single_line_value_error :
  forall s : string,
    single_line s = true ->
    (get_module_name_from_import s =
     raise (ValueError ("Couldn't get module name from '" +:+ s +:+ "'.")) <->
     ~ import_grammar s).
Proof.
  intros s Hs. unfold get_module_name_from_import. split.
  - intros H Hg. destruct (single_line_regex s Hs Hg) as [m Hm].
    rewrite Hm in H. discriminate.
  - intros H. rewrite (not_grammar_regex s H). reflexivity.
Qed.

Lemma single_line_value_error_witness :
  get_module_name_from_import "from" =
  raise (ValueError ("Couldn't get module name from '" +:+ "from" +:+ "'.")).
Proof.
  apply (proj2 (single_line_value_error "from" eq_refl)).
  intros H. apply import_grammarb_spec in H. vm_compute in H. discriminate.
Defined.

(** ** The pipeline as a whole *)

Lemma cat_of_safe py_import override (s m : string) :
  import_safe py_import -> import_regex s = Some m ->
  exists k, cat_of py_import override s = Return k.
Proof.
  intros Hsafe Hm. unfold cat_of, category_of.
  rewrite (get_module_name_regex _ _ Hm), bind_ret_l.
  destruct (String.eqb m "."); [eauto|]. rewrite result_bind.
  destruct (is_standard_module_safe py_import m override Hsafe) as [b ->].
  destruct b; [eauto|]. rewrite result_bind.
  destruct (is_third_party_module_safe py_import m override Hsafe) as [b ->].
  destruct b; eauto.
Qed.

Lemma cat_of_unparseable py_import override (s : string) :
  import_regex s = None ->
  cat_of py_import override s =
  Raise (ValueError ("Couldn't get module name from '" +:+ s +:+ "'.")).
Proof.
  intros H. unfold cat_of, category_of, get_module_name_from_import.
  rewrite H. reflexivity.
Qed.

Lemma group_pure_raise_safe py_import override l e :
  import_safe py_import ->
  forall d, group_pure (cat_of py_import override) d l = Raise e ->
  exists s, In s l /\ import_regex s = None /\
            e = ValueError ("Couldn't get module name from '" +:+ s +:+ "'.").
Proof.
  intros Hsafe. induction l as [|x r IH]; intros d H; simpl in H; [discriminate|].
  destruct (import_regex x) as [m|] eqn:Ex.
  - destruct (cat_of_safe py_import override x m Hsafe Ex) as [k Hk].
    rewrite Hk in H. destruct (IH _ H) as (s & Hin & Hs). exists s. split; [right|]; tauto.
  - rewrite (cat_of_unparseable _ _ _ Ex) in H. injection H as <-.
    exists x. split; [left; reflexivity|]. auto.
Qed.

Lemma pipeline_result py_import override contents :
  result (pipeline py_import override contents) =
  match group_pure (cat_of py_import override) ∅ (snd (import_lines_of contents)) with
  | Return d =>
      match result (get_ordered_imports (VList <$> d)) with
      | Return o => Return (fst o)
      | Raise e => Raise e
      end
  | Raise e => Raise e
  end.
Proof.
  unfold pipeline. destruct (import_lines_of contents) as [raw stmts]. simpl snd.
  rewrite result_bind. unfold construct_import_dict. rewrite group_lines_result.
  destruct (group_pure _ ∅ stmts); [|reflexivity].
  rewrite result_bind. destruct (result (get_ordered_imports _)); reflexivity.
Qed.

Lemma grouped_orders py_import override contents d :
  group_pure (cat_of py_import override) ∅ (snd (import_lines_of contents)) = Return d ->
  exists l1 l2 l3 g',
    get_ordered_imports (VList <$> d) = ret (ordered_text l1 l2 l3, g') /\
    l1 ≡ₚ default [] (d !! "standard") /\
    l2 ≡ₚ default [] (d !! "third_party") /\
    l3 ≡ₚ default [] (d !! "local").
Proof.
  intros H.
  assert (Hc : result (construct_import_dict py_import
                         (snd (import_lines_of contents)) override) = Return d).
  { unfold construct_import_dict. rewrite group_lines_result. exact H. }
  pose proof (grouped_statement_lines _ _ _ _ Hc) as Hstmt.
  assert (Hk : forall key, exists l,
               result (sorted (default [] (d !! key))) = Return l).
  { intros key. apply sorted_returns.
    destruct (d !! key) as [l|] eqn:E; [|constructor].
    apply List.Forall_forall. intros s Hs.
    apply statement_line_inv. exact (Hstmt key l s E Hs). }
  destruct (Hk "standard") as [l1 S1]. destruct (Hk "third_party") as [l2 S2].
  destruct (Hk "local") as [l3 S3].
  exists l1, l2, l3, (ordered_dict (VList <$> d) l1 l2 l3).
  split; [apply get_ordered_imports_returns; rewrite items_of_fmap; assumption|].
  auto using sorted_perm.
Qed.

(** X15. The canonical text holds every extracted statement once, as a
    line of its own: its non-empty lines are a rearrangement of the
    statement list of the extractor; nothing is lost, added or merged. *)
Theorem pipeline_keeps_statements :
  forall (py_import : string -> import_result) (override : option overrides)
         (contents out : string),
    result (pipeline py_import override contents) = Return out ->
    List.filter (fun i => negb (String.eqb i "")) (Str.split Str.LF out) ≡ₚ
    snd (import_lines_of contents).
Proof.
  intros py_import override contents out H. rewrite pipeline_result in H.
  set (cat := cat_of py_import override) in *.
  destruct (group_pure cat ∅ (snd (import_lines_of contents))) as [d|] eqn:Hd;
    [|discriminate].
  destruct (grouped_orders _ _ _ _ Hd) as (l1 & l2 & l3 & g' & Ho & P1 & P2 & P3).
  rewrite Ho in H. simpl in H. injection H as <-.
  pose proof (import_lines_extracted contents) as Hext.
  set (stmts := snd (import_lines_of contents)) in *.
  rewrite (group_pure_bucket cat _ _ "standard" Hd) in P1.
  rewrite (group_pure_bucket cat _ _ "third_party" Hd) in P2.
  rewrite (group_pure_bucket cat _ _ "local" Hd) in P3.
  assert (Hpart : stmts ≡ₚ l1 ++ l2 ++ l3).
  { rewrite P1, P2, P3. apply bucket_partition.
    eapply Forall_impl; [exact (group_pure_inv _ _ _ _ Hd)|].
    intros s [k Hk]. exists k. split; [exact Hk|]. exact (cat_of_keys _ _ _ _ Hk). }
  assert (E : forall l key, l ≡ₚ bucket cat key stmts -> Forall extracted l).
  { intros l key Hp. rewrite Hp. apply bucket_incl. exact Hext. }
  pose proof (E _ _ P1) as E1. pose proof (E _ _ P2) as E2.
  pose proof (E _ _ P3) as E3.
  assert (N : forall l, Forall extracted l -> Forall (fun s => s <> "") l).
  { intros l Hx. eapply Forall_impl; [exact Hx|]. apply extracted_nonblank. }
  destruct (ordered_text_groups l1 l2 l3 (N _ E1) (N _ E2) (N _ E3)) as [_ Et].
  assert (HG : Forall (fun g => g <> [] /\ Forall extracted g)
                 (List.filter truthy [l1; l2; l3])).
  { apply filter_truthy. repeat constructor; assumption. }
  rewrite Hpart, Et.
  replace (l1 ++ l2 ++ l3) with (concat (List.filter truthy [l1; l2; l3]))
    by (rewrite concat_filter_truthy; simpl; rewrite List.app_nil_r; reflexivity).
  destruct (List.filter truthy [l1; l2; l3]) as [|g r] eqn:Eg; [reflexivity|].
  rewrite <- Eg in *. rewrite split_join.
  - rewrite with_blanks_filter; [reflexivity|].
    eapply Forall_impl; [exact HG|]. intros ? [_ Hx]. apply N. exact Hx.
  - apply with_blanks_nonempty; [|rewrite Eg; discriminate].
    eapply Forall_impl; [exact HG|]. intros ? [? _]. assumption.
  - apply with_blanks_single_line.
    eapply Forall_impl; [exact HG|]. intros ? [_ Hx].
    eapply Forall_impl; [exact Hx|]. intros s (_ & _ & Hs). exact Hs.
Qed.

Lemma pipeline_keeps_statements_witness :
  exists out,
    result (pipeline Demo.import_ (Some (main_override Demo.args)) Demo.unsorted_py) =
    Return out /\
    List.filter (fun i => negb (String.eqb i "")) (Str.split Str.LF out) ≡ₚ
    ["import sys"; "import cv2"; "from . import helper"; "import os"].
Proof.
  eexists.
  assert (H : result (pipeline Demo.import_ (Some (main_override Demo.args))
                        Demo.unsorted_py) =
              Return ("import os" +:+ Str.nl +:+ "import sys" +:+ Str.nl +:+ Str.nl +:+
                      "import cv2" +:+ Str.nl +:+ Str.nl +:+ "from . import helper"))
    by (vm_compute; reflexivity).
  split; [exact H|].
  exact (pipeline_keeps_statements _ _ _ _ H).
Defined.

(** X16. With an interpreter whose imports raise at most [ImportError], the
    pipeline returns a canonical text exactly when every extracted
    statement is inside the grammar '^(from|import) <dotted identifier>';
    otherwise it ends with the [ValueError] of a statement outside it. In
    particular the sort key never raises [IndexError] on a statement that
    came through the grouper. *)
Theorem pipeline_fails_only_on_grammar :
  forall (py_import : string -> import_result) (override : option overrides)
         (contents : string),
    import_safe py_import ->
    ((forall s, In s (snd (import_lines_of contents)) -> import_grammar s) <->
     exists out, result (pipeline py_import override contents) = Return out) /\
    (forall e,
        result (pipeline py_import override contents) = Raise e ->
        exists s,
          In s (snd (import_lines_of contents)) /\ ~ import_grammar s /\
          e = ValueError ("Couldn't get module name from '" +:+ s +:+ "'.")).
Proof.
  intros py_import override contents Hsafe. rewrite pipeline_result.
  set (cat := cat_of py_import override).
  pose proof (import_lines_extracted contents) as Hext.
  rewrite List.Forall_forall in Hext.
  split; [split|].
  - intros Hg.
    destruct (group_pure_returns cat (snd (import_lines_of contents))) with (d := (∅ : gmap string (list string)))
      as [d Hd].
    { apply List.Forall_forall. intros s Hs.
      destruct (Hext s Hs) as (_ & _ & Hline).
      destruct (single_line_regex s Hline (Hg s Hs)) as [m Hm].
      exact (cat_of_safe _ _ _ _ Hsafe Hm). }
    rewrite Hd.
    destruct (grouped_orders _ _ _ _ Hd) as (l1 & l2 & l3 & g' & Ho & _).
    rewrite Ho. simpl. eauto.
  - intros [out H] s Hs.
    destruct (group_pure cat ∅ (snd (import_lines_of contents))) as [d|] eqn:Hd;
      [|discriminate].
    pose proof (group_pure_inv _ _ _ _ Hd) as Hall.
    rewrite List.Forall_forall in Hall. destruct (Hall s Hs) as [k Hk].
    destruct (cat_of_regex _ _ _ _ Hk) as [m Hm].
    exact (import_regex_grammar _ _ Hm).
  - intros e H.
    destruct (group_pure cat ∅ (snd (import_lines_of contents))) as [d|] eqn:Hd.
    + destruct (grouped_orders _ _ _ _ Hd) as (l1 & l2 & l3 & g' & Ho & _).
      rewrite Ho in H. discriminate.
    + injection H as ->.
      destruct (group_pure_raise_safe _ _ _ _ Hsafe _ Hd) as (s & Hin & Hs & ->).
      exists s. split; [exact Hin|]. split; [|reflexivity].
      intros Hg. destruct (Hext s Hin) as (_ & _ & Hline).
      destruct (single_line_regex s Hline Hg) as [m Hm]. congruence.
Qed.

Lemma demo_import_safe : import_safe Demo.import_.
Proof.
  intros m name. unfold Demo.import_.
  repeat match goal with |- context [if ?b then _ else _] => destruct b end;
    discriminate.
Qed.

Lemma pipeline_fails_only_on_grammar_witness :
  exists s,
    In s (snd (import_lines_of Demo.unsorted_fromage)) /\ ~ import_grammar s /\
    result (pipeline Demo.import_ None Demo.unsorted_fromage) =
    Raise (ValueError ("Couldn't get module name from '" +:+ s +:+ "'.")).
Proof.
  assert (H : result (pipeline Demo.import_ None Demo.unsorted_fromage) =
              Raise (ValueError ("Couldn't get module name from '" +:+
                                 "fromage = 1" +:+ "'.")))
    by (vm_compute; reflexivity).
  destruct (proj2 (pipeline_fails_only_on_grammar Demo.import_ None
                     Demo.unsorted_fromage demo_import_safe) _ H)
    as (s & Hin & Hg & He).
  exists s. split; [exact Hin|]. split; [exact Hg|]. rewrite H, He. reflexivity.
Defined.

(** ** The loop of main *)

Lemma main_loop_status py_import read_file unified_diff args files :
  forall n m,
    result (main_loop py_import read_file unified_diff args files n) = Return m ->
    n <= m /\
    (m = n <->
     forall f, In f files ->
               is_Some (read_file f) /\
               result (check_file py_import read_file unified_diff args f) = Return 0).
Proof.
  induction files as [|f r IH]; intros n m H.
  - injection H as <-. split; [lia|]. split; [intros _ f []|reflexivity].
  - simpl in H. rewrite result_bind, sanity_check_result in H.
    destruct (read_file f) as [text|] eqn:Hf; simpl in H.
    + rewrite result_bind in H.
      destruct (result (check_file py_import read_file unified_diff args f))
        as [k|] eqn:Hk; [|discriminate].
      destruct (IH _ _ H) as [Hle Hiff]. split; [lia|]. split.
      * intros ->. assert (k = 0) by lia. subst k.
        intros f' [<-|Hin]; [rewrite Hf; eauto|].
        apply Hiff; [lia|exact Hin].
      * intros Hall. destruct (Hall f (or_introl eq_refl)) as [_ H0].
        rewrite Hk in H0. injection H0 as ->. rewrite Nat.add_0_r in Hiff.
        apply Hiff. intros f' Hin. apply Hall. right. exact Hin.
    + destruct (IH _ _ H) as [Hle _]. split; [lia|]. split; [lia|].
      intros Hall. destruct (Hall f (or_introl eq_refl)) as [[t Ht] _]. congruence.
Qed.

(** X17. When [main] returns, the value it exits with is [False] (status
    0) exactly when every file named on the command line exists and its
    check returned 0; a missing file or a file whose imports need
    reordering makes it [True]. *)
Theorem main_exit_status :
  forall py_import read_file unified_diff (args : clargs) (b : bool),
    result (main py_import read_file unified_diff args) = Return b ->
    (b = false <->
     forall f, In f (cl_files args) ->
               is_Some (read_file f) /\
               result (check_file py_import read_file unified_diff args f) = Return 0).
Proof.
  intros py_import read_file unified_diff args b H. unfold main in H.
  rewrite result_bind in H.
  destruct (result (main_loop py_import read_file unified_diff args (cl_files args) 0))
    as [m|] eqn:Hm; [|discriminate].
  simpl in H. injection H as <-.
  destruct (main_loop_status _ _ _ _ _ _ _ Hm) as [_ Hiff].
  rewrite <- Hiff. rewrite Nat.ltb_ge. lia.
Qed.

Lemma main_exit_status_witness :
  result (main Demo.import_ (Demo.files Demo.unsorted_py) Demo.diff Demo.args) =
  Return true /\
  ~ (forall f, In f (cl_files Demo.args) ->
               is_Some (Demo.files Demo.unsorted_py f) /\
               result (check_file Demo.import_ (Demo.files Demo.unsorted_py)
                         Demo.diff Demo.args f) = Return 0).
Proof.
  assert (H : result (main Demo.import_ (Demo.files Demo.unsorted_py) Demo.diff
                        Demo.args) = Return true) by (vm_compute; reflexivity).
  split; [exact H|]. intros Hall.
  apply (proj2 (main_exit_status _ _ _ _ _ H)) in Hall. discriminate.
Defined.

Lemma main_loop_missing py_import read_file unified_diff args files :
  (forall f, In f files -> read_file f = None) ->
  forall n,
    main_loop py_import read_file unified_diff args files n =
    (Return (n + length files),
     map (fun f => EStderr ("File '" +:+ f +:+ "' doesn't exist." +:+ Str.nl)) files).
Proof.
  induction files as [|f r IH]; intros Hall n.
  - simpl. rewrite Nat.add_0_r. reflexivity.
  - simpl. unfold sanity_check. rewrite (Hall f (or_introl eq_refl)).
    unfold bind at 1. simpl. rewrite IH by (intros f' Hin; apply Hall; right; exact Hin).
    rewrite <- Nat.add_assoc. reflexivity.
Qed.

(** X18. When none of the files exists, [main] opens and imports nothing:
    it writes one line per file to the error stream, in order, and exits
    with [True] unless the list of files is empty. *)
Theorem main_all_files_missing :
  forall py_import read_file unified_diff (args : clargs),
    (forall f, In f (cl_files args) -> read_file f = None) ->
    main py_import read_file unified_diff args =
    (Return (0 <? length (cl_files args)),
     map (fun f => EStderr ("File '" +:+ f +:+ "' doesn't exist." +:+ Str.nl))
       (cl_files args)).
Proof.
  intros py_import read_file unified_diff args Hall. unfold main.
  rewrite (main_loop_missing _ _ _ _ _ Hall). unfold bind. simpl.
  rewrite List.app_nil_r. reflexivity.
Qed.

Lemma main_all_files_missing_witness :
  main Demo.broken_import (fun _ => None) Demo.diff Demo.args =
  (Return true,
   [EStderr ("File '" +:+ "a.py" +:+ "' doesn't exist." +:+ Str.nl);
    EStderr ("File '" +:+ "missing.py" +:+ "' doesn't exist." +:+ Str.nl)]).
Proof.
  apply (main_all_files_missing Demo.broken_import (fun _ => None) Demo.diff Demo.args).
  reflexivity.
Defined.

(** ** Splitting and joining *)

Lemma split_nonempty (sep : ascii) (s : string) : Str.split sep s <> [].
Proof.
  destruct s as [|c r]; simpl; [discriminate|].
  destruct (Ascii.eqb c sep); [discriminate|]. destruct (Str.split sep r); discriminate.
Qed.

Lemma split_no_sep (sep : ascii) (x : string) :
  no_char sep x = true -> Str.split sep x = [x].
Proof.
  unfold no_char. induction x as [|c x IH]; [reflexivity|]. simpl.
  intros [Hc Hx]%andb_true_iff. apply negb_true_iff in Hc. rewrite Hc, (IH Hx).
  reflexivity.
Qed.

Lemma split_app_sep (sep : ascii) (x rest : string) :
  no_char sep x = true ->
  Str.split sep (x +:+ String sep rest) = x :: Str.split sep rest.
Proof.
  unfold no_char. induction x as [|c x IH].
  - intros _. rewrite sapp_nil_l. simpl. rewrite Ascii.eqb_refl. reflexivity.
  - simpl. intros [Hc Hx]%andb_true_iff. apply negb_true_iff in Hc.
    rewrite Hc, (IH Hx). reflexivity.
Qed.

Lemma split_join_char (sep : ascii) (l : list string) :
  l <> [] -> Forall (fun s => no_char sep s = true) l ->
  Str.split sep (Str.join (String sep "") l) = l.
Proof.
  intros Hne Hl. induction Hl as [|x r Hx Hr IH]; [congruence|].
  destruct r as [|y r]; [apply split_no_sep; exact Hx|].
  rewrite join_cons by discriminate.
  change (String sep "" +:+ Str.join (String sep "") (y :: r))
    with (String sep (Str.join (String sep "") (y :: r))).
  rewrite split_app_sep by exact Hx. rewrite IH by discriminate. reflexivity.
Qed.

Lemma join_cons_head (sep : string) (c : ascii) (l : string) (ls : list string) :
  Str.join sep (String c l :: ls) = String c (Str.join sep (l :: ls)).
Proof. destruct ls; reflexivity. Qed.

(** Joining what [split] returned gives the string back. *)
Lemma join_split (sep : ascii) (s : string) :
  Str.join (String sep "") (Str.split sep s) = s.
Proof.
  induction s as [|c r IH]; [reflexivity|]. simpl.
  destruct (Ascii.eqb_spec c sep) as [->|Hc].
  - rewrite join_cons by apply split_nonempty. rewrite IH. reflexivity.
  - destruct (Str.split sep r) as [|l ls] eqn:E; [exfalso; exact (split_nonempty _ _ E)|].
    rewrite join_cons_head, IH. reflexivity.
Qed.

Lemma split_elements (sep : ascii) (s : string) :
  Forall (fun x => no_char sep x = true) (Str.split sep s).
Proof.
  induction s as [|c r IH]; [repeat constructor|]. simpl.
  destruct (Ascii.eqb c sep) eqn:Hc; [constructor; [reflexivity|exact IH]|].
  destruct (Str.split sep r) as [|l ls]; [repeat constructor; unfold no_char; simpl; rewrite Hc; reflexivity|].
  apply Forall_cons in IH as [Hl Hls]. constructor; [|exact Hls].
  unfold no_char in *. simpl. rewrite Hc, Hl. reflexivity.
Qed.

Lemma str_forall_app (P : ascii -> bool) (a b : string) :
  str_forall P (a +:+ b) = str_forall P a && str_forall P b.
Proof.
  induction a as [|c a IH]; [reflexivity|]. simpl. rewrite IH, andb_assoc. reflexivity.
Qed.

Lemma str_forall_lstrip (P : ascii -> bool) (s : string) :
  str_forall P s = true -> str_forall P (Str.lstrip s) = true.
Proof.
  induction s as [|c s IH]; [reflexivity|]. simpl.
  destruct (Str.isspace c); [|auto]. intros [_ H]%andb_true_iff. exact (IH H).
Qed.

Lemma str_forall_rstrip (P : ascii -> bool) (s : string) :
  str_forall P s = true -> str_forall P (Str.rstrip s) = true.
Proof.
  destruct (rstrip_prefix_of s) as [w Hw]. intros H. rewrite Hw in H.
  rewrite str_forall_app in H. apply andb_true_iff in H. tauto.
Qed.

Lemma lstrip_cases (s : string) :
  Str.lstrip s = "" \/ exists c r, Str.lstrip s = String c r /\ Str.isspace c = false.
Proof.
  induction s as [|c s IH]; [left; reflexivity|]. simpl.
  destruct (Str.isspace c) eqn:E; [exact IH|]. right. eauto.
Qed.

(** Stripping twice is stripping once. *)
Lemma strip_idem (s : string) : Str.strip (Str.strip s) = Str.strip s.
Proof.
  unfold Str.strip at 2 3.
  destruct (lstrip_cases s) as [->|(c & r & -> & Hc)]; [reflexivity|].
  destruct (rstrip_cons_nonspace c r Hc) as [r' Hr]. rewrite Hr.
  unfold Str.strip. simpl Str.lstrip. rewrite Hc, <- Hr. apply rstrip_idem.
Qed.

(** ** The override options *)

(** X19. [_sanitize_cmd_line_opt] never returns the empty list (an option
    left at '' gives the list with the one name ''); every name it returns
    is stripped and free of commas; and on a comma-joined list of such
    names it returns the list itself. *)
Theorem sanitize_specification :
  (forall opt : string,
      _sanitize_cmd_line_opt opt <> [] /\
      Forall sanitized_name (_sanitize_cmd_line_opt opt)) /\
  _sanitize_cmd_line_opt "" = [""] /\
  (forall names : list string,
      names <> [] -> Forall sanitized_name names ->
      _sanitize_cmd_line_opt (Str.join "," names) = names).
Proof.
  unfold _sanitize_cmd_line_opt. split; [|split; [reflexivity|]].
  - intros opt. split.
    + intros H. apply map_eq_nil in H. exact (split_nonempty _ _ H).
    + apply List.Forall_map. eapply Forall_impl; [apply (split_elements ","%char)|].
      intros x Hx. split; [apply strip_idem|].
      unfold Str.strip, no_char. apply str_forall_rstrip, str_forall_lstrip. exact Hx.
  - intros names Hne Hall.
    rewrite (split_join_char ","%char names Hne).
    + induction Hall as [|x r [Hx _] _ IH]; [reflexivity|].
      simpl. rewrite Hx. destruct r as [|y r]; [reflexivity|].
      rewrite IH by discriminate. reflexivity.
    + eapply Forall_impl; [exact Hall|]. intros x [_ Hx]. exact Hx.
Qed.

Lemma sanitize_specification_witness :
  _sanitize_cmd_line_opt (Str.join "," ["os"; "sys"]) = ["os"; "sys"].
Proof.
  apply (proj2 (proj2 sanitize_specification) ["os"; "sys"]).
  - discriminate.
  - repeat constructor.
Defined.

(** ** The diff reporter *)

Lemma sapp_nl_inj (s t : string) : s +:+ Str.nl = t +:+ Str.nl -> s = t.
Proof.
  revert t. induction s as [|c s IH]; intros [|d t] H.
  - reflexivity.
  - rewrite sapp_nil_l, sapp_cons in H. injection H as _ H. symmetry in H.
    apply sapp_eq_nil in H as [_ H]. discriminate.
  - rewrite sapp_nil_l, sapp_cons in H. injection H as _ H.
    apply sapp_eq_nil in H as [_ H]. discriminate.
  - rewrite !sapp_cons in H. injection H as -> H. rewrite (IH _ H). reflexivity.
Qed.

Lemma terminated_lines_inj (a b : string) :
  map (fun l => l +:+ Str.nl) (Str.split Str.LF a) =
  map (fun l => l +:+ Str.nl) (Str.split Str.LF b) -> a = b.
Proof.
  intros H. rewrite <- (join_split Str.LF a), <- (join_split Str.LF b). f_equal.
  revert H. generalize (Str.split Str.LF a) (Str.split Str.LF b).
  induction l as [|x l IH]; intros [|y l'] H; try discriminate; [reflexivity|].
  simpl in H. injection H as Hx Hl. rewrite (sapp_nl_inj _ _ Hx), (IH _ Hl).
  reflexivity.
Qed.

(** X20. Given a diff that is empty exactly on equal sequences,
    [verify_imports_order] returns 0 when the actual and the expected text
    are the same string and 1 otherwise: cutting the texts into lines loses
    nothing, so any difference, also in the blank lines, is reported. What
    it prints are the lines of the diff. *)
Theorem verify_imports_order_exact :
  forall (unified_diff : list string -> list string -> string -> string -> list string),
    (forall a b fromfile tofile, unified_diff a b fromfile tofile = [] <-> a = b) ->
    forall actual expected filename : string,
      result (verify_imports_order unified_diff actual expected filename) =
      Return (if String.eqb actual expected then 0 else 1) /\
      trace (verify_imports_order unified_diff actual expected filename) =
      map EStdout
        (unified_diff (map (fun l => l +:+ Str.nl) (Str.split Str.LF actual))
           (map (fun l => l +:+ Str.nl) (Str.split Str.LF expected))
           filename "expected").
Proof.
  intros unified_diff Hd actual expected filename.
  split; [|reflexivity]. unfold verify_imports_order, result. simpl. f_equal.
  destruct (String.eqb_spec actual expected) as [->|Hne].
  - rewrite (proj2 (Hd _ _ _ _) eq_refl). reflexivity.
  - destruct (unified_diff _ _ filename "expected") as [|x l] eqn:E; [|reflexivity].
    exfalso. apply Hne, terminated_lines_inj. exact (proj1 (Hd _ _ _ _) E).
Qed.

Lemma demo_diff_exact (a b : list string) (fromfile tofile : string) :
  Demo.diff a b fromfile tofile = [] <-> a = b.
Proof.
  unfold Demo.diff. destruct (decide (a = b)); split; (congruence || discriminate).
Qed.

Lemma verify_imports_order_exact_witness :
  result (verify_imports_order Demo.diff
            ("import os" +:+ Str.nl +:+ "import sys")
            ("import os" +:+ Str.nl +:+ Str.nl +:+ "import sys") "a.py") = Return 1.
Proof.
  exact (proj1 (verify_imports_order_exact Demo.diff demo_diff_exact
                  ("import os" +:+ Str.nl +:+ "import sys")
                  ("import os" +:+ Str.nl +:+ Str.nl +:+ "import sys") "a.py")).
Defined.

(** ** The extractor's results as text *)

(** X21. Every statement the extractor returns is a non-empty single line
    without surrounding whitespace that starts with "import" or "from";
    a line that starts with "from __future__" is never among them, so such
    imports are never moved. *)
Theorem extracted_statement_shape :
  forall contents s : string,
    In s (snd (import_lines_of contents)) ->
    s <> "" /\ Str.strip s = s /\ single_line s = true /\
    (Str.startswith s "import" = true \/ Str.startswith s "from" = true) /\
    Str.startswith s "from __future__" = false.
Proof.
  intros contents s Hin.
  pose proof (import_lines_extracted contents) as H.
  rewrite List.Forall_forall in H. destruct (H s Hin) as (Hs & Hstrip & Hline).
  split; [exact (extracted_nonblank s (H s Hin))|].
  split; [exact Hstrip|]. split; [exact Hline|].
  unfold Str.startswith. apply import_start_cases in Hs.
  destruct Hs as [Hi|[Hf Hn]]; [|auto].
  split; [auto|]. apply prefix_inv in Hi as [r ->]. reflexivity.
Qed.

Lemma extracted_statement_shape_witness :
  In "from . import helper" (snd (import_lines_of Demo.unsorted_py)) /\
  Str.strip "from . import helper" = "from . import helper".
Proof.
  assert (H : In "from . import helper" (snd (import_lines_of Demo.unsorted_py)))
    by (vm_compute; tauto).
  split; [exact H|].
  exact (proj1 (proj2 (extracted_statement_shape _ _ H))).
Defined.

Lemma scan_lines_block (lines : list string) :
  exists il,
    scan_lines lines =
    (Str.join Str.nl il, List.filter (fun i => negb (String.eqb i "")) il) /\
    head il <> Some "" /\ last il <> Some "".
Proof.
  unfold scan_lines.
  pose proof (scan_fold_invariant lines [] []) as H. simpl in H.
  destruct (fold_left scan_line lines ([], [])) as [il pend].
  exists il. split; [reflexivity|]. apply H; [reflexivity|discriminate..].
Qed.

Lemma import_block_entries (contents : string) :
  exists il,
    import_lines_of contents =
    (Str.join Str.nl il, List.filter (fun i => negb (String.eqb i "")) il) /\
    head il <> Some "" /\ last il <> Some "" /\
    Forall (fun s => s = "" \/ extracted s) il.
Proof.
  pose proof (import_lines_extracted contents) as Hext.
  unfold import_lines_of in *.
  destruct (scan_lines_block (Str.readlines contents)) as (il & E & Hh & Hl).
  exists il. rewrite E in *. simpl in Hext. repeat split; try assumption.
  apply List.Forall_forall. intros e He.
  destruct (String.eqb_spec e "") as [->|Hne]; [left; reflexivity|]. right.
  rewrite List.Forall_forall in Hext. apply Hext. apply filter_In.
  split; [exact He|]. apply String.eqb_neq in Hne. rewrite Hne. reflexivity.
Qed.

Lemma entries_single_line (il : list string) :
  Forall (fun s => s = "" \/ extracted s) il ->
  Forall (fun s => single_line s = true) il.
Proof.
  intros H. eapply Forall_impl; [exact H|].
  intros s [->|(_ & _ & Hs)]; [reflexivity|exact Hs].
Qed.

(** X22. The two results of the extractor agree: the statement list is
    the list of the non-empty lines of the raw block. *)
Theorem statements_are_block_lines :
  forall contents : string,
    snd (import_lines_of contents) =
    List.filter (fun i => negb (String.eqb i ""))
      (Str.split Str.LF (fst (import_lines_of contents))).
Proof.
  intros contents.
  destruct (import_block_entries contents) as (il & -> & _ & _ & Hall).
  simpl. destruct il as [|x il]; [reflexivity|].
  rewrite split_join; [reflexivity|discriminate|].
  apply entries_single_line. exact Hall.
Qed.

(** X23. The extractor reproduces its raw block: applied to the import
    block it returned for a file, it returns the same block and the same
    statements. *)
Theorem extractor_idempotent :
  forall contents : string,
    import_lines_of (fst (import_lines_of contents)) = import_lines_of contents.
Proof.
  intros contents.
  destruct (import_block_entries contents) as (il & -> & Hh & Hl & Hall).
  simpl fst. unfold import_lines_of.
  rewrite readlines_join by (try apply entries_single_line; assumption).
  destruct il as [|x il]; [reflexivity|].
  unfold scan_lines.
  rewrite (scan_terminated _ Hall Hl [] []); [reflexivity| |discriminate].
  intros _. exact Hh.
Qed.
